(** * Palitana Yatra tracker: offline-first scan delivery

    A shallow embedding of the scan-delivery pipeline of the tracker:

    - [Types]: the [ScanLog] shape shared by the screens ([@/types]);
    - [OfflineSync]: [hooks/use-offline-sync.ts], the pending queue kept in
      React state and AsyncStorage, the dispatcher [syncSingleScan], the
      cycle [syncPendingScans] and the submission entry point [addScan];
    - [GoogleSheetsLogger]: the server-side secondary sink with its bounded
      in-memory retry queue;
    - [AuthoritativeStore]: the contract of the [scanLogs.create] procedure.

    Numbers that the TypeScript code uses as counters or identifiers are
    integers ([Z]); durations that involve [Math.random()] are rationals
    ([Q]), every IEEE double being one. *)

From Stdlib Require Import List String ZArith QArith Qminmax Qpower Bool Lia Lqa.
From Stdlib Require Import Permutation Sorted.
Import ListNotations.

Local Open Scope Z_scope.

(** ** Shared types ([@/types]) *)

Module Types.

(** [ScanLog] as the hook builds it: an [id], the uniqueness key, the capture
    data and the [synced] flag that tells confirmed rows from pending ones. *)
Record ScanLog : Type := mkScanLog {
  id : string;
  participantId : string;
  checkpointId : Z;
  timestamp : string;
  deviceId : option string;
  gpsLat : option Q;
  gpsLng : option Q;
  synced : bool
}.

End Types.

(** ** The offline-first hook ([hooks/use-offline-sync.ts]) *)

Module OfflineSync.

(** *** [SYNC_CONFIG] *)

Definition BASE_RETRY_DELAY : Z := 1000.
Definition MAX_RETRY_DELAY : Z := 30000.
Definition MAX_RETRIES : Z := 10.
Definition BATCH_SIZE : nat := 50.

(** *** [getRetryDelay]

    [random] stands for the value returned by [Math.random()], a number in
    [0, 1).  [Math.pow(2, retryCount)] is [Qpower 2 retryCount]. *)

Definition getRetryDelay (retryCount : Z) (random : Q) : Q :=
  let delay := (inject_Z BASE_RETRY_DELAY * Qpower (2 # 1) retryCount)%Q in
  let jitter := (random * 500)%Q in
  Qmin (delay + jitter)%Q (inject_Z MAX_RETRY_DELAY).

(** *** [PendingScan] *)

Module PendingScan.
Record t : Type := mk {
  id : string;
  participantId : string;
  checkpointId : Z;
  timestamp : string;
  deviceId : string;
  gpsLat : option Q;
  gpsLng : option Q;
  retryCount : Z;
  createdAt : string
}.

(** [{ ...s, retryCount: n }] *)
Definition with_retryCount (s : t) (n : Z) : t :=
  {| id := id s; participantId := participantId s;
     checkpointId := checkpointId s; timestamp := timestamp s;
     deviceId := deviceId s; gpsLat := gpsLat s; gpsLng := gpsLng s;
     retryCount := n; createdAt := createdAt s |}.
End PendingScan.

(** *** The mutation [trpc.scanLogs.create], seen from the device

    [mutateAsync] either resolves with the server's [{success, duplicate}]
    or rejects (network error, timeout, server error). *)
Module CreateScan.
Record Result : Type := { success : bool; duplicate : bool }.
Inductive Outcome : Type :=
| Resolved (result : Result)
| Rejected (error : string).
End CreateScan.

(** *** What a render closes over, and what lives outside the closures

    [useOfflineSync] runs once per render.  [useState] hands the render the
    current value of each cell as a [const]; every [useCallback] body
    created in that render reads those constants, not the cells.  A
    callback therefore keeps seeing the arrays and booleans of the render
    that created it, also after a setter has replaced the cell.
    [Closure] is that captured environment; [HookState] holds the cells
    themselves with the things that are shared by reference: AsyncStorage,
    [isMountedRef.current], the network and the console. *)

Record Closure : Type := {
  isOnline : bool;
  isSyncing : bool;
  pendingScans : list PendingScan.t;
  scanLogs : list Types.ScanLog;   (* [dbScanLogs] mapped, [synced: true] *)
  deviceId : string
}.

Record AsyncStorage : Type := {
  PENDING_SCANS : option (list PendingScan.t);
  LOCAL_SCANS : option string;
  LAST_SYNC : option string;
  DEVICE_ID : option string
}.

Inductive ConsoleEntry : Type :=
| error_FailedToSyncScan (error : string)   (* "[OfflineSync] Failed to sync scan:" *)
| error_SyncFailed (error : string).         (* "[OfflineSync] Sync failed:" *)

Record HookState : Type := {
  st_isOnline : bool;
  st_isSyncing : bool;
  st_pendingScans : list PendingScan.t;
  st_lastSyncTime : option string;
  st_syncError : option string;
  st_deviceId : string;
  st_scanLogs : list Types.ScanLog;     (* data of [trpc.scanLogs.list] *)
  isMountedRef : bool;
  storage : AsyncStorage;
  requests : list PendingScan.t;        (* [mutateAsync] calls issued, oldest first *)
  timers : list Q;                      (* awaited [setTimeout] durations, oldest first *)
  console : list ConsoleEntry
}.

(** The closure a render builds from the cells. *)
Definition render (h : HookState) : Closure :=
  {| isOnline := st_isOnline h; isSyncing := st_isSyncing h;
     pendingScans := st_pendingScans h; scanLogs := st_scanLogs h;
     deviceId := st_deviceId h |}.

(** Setters and other writes. *)
Definition setPendingScans (scans : list PendingScan.t) (h : HookState) : HookState :=
  {| st_isOnline := st_isOnline h; st_isSyncing := st_isSyncing h;
     st_pendingScans := scans; st_lastSyncTime := st_lastSyncTime h;
     st_syncError := st_syncError h; st_deviceId := st_deviceId h;
     st_scanLogs := st_scanLogs h; isMountedRef := isMountedRef h;
     storage := storage h; requests := requests h; timers := timers h;
     console := console h |}.

Definition setIsSyncing (b : bool) (h : HookState) : HookState :=
  {| st_isOnline := st_isOnline h; st_isSyncing := b;
     st_pendingScans := st_pendingScans h; st_lastSyncTime := st_lastSyncTime h;
     st_syncError := st_syncError h; st_deviceId := st_deviceId h;
     st_scanLogs := st_scanLogs h; isMountedRef := isMountedRef h;
     storage := storage h; requests := requests h; timers := timers h;
     console := console h |}.

Definition setSyncError (e : option string) (h : HookState) : HookState :=
  {| st_isOnline := st_isOnline h; st_isSyncing := st_isSyncing h;
     st_pendingScans := st_pendingScans h; st_lastSyncTime := st_lastSyncTime h;
     st_syncError := e; st_deviceId := st_deviceId h;
     st_scanLogs := st_scanLogs h; isMountedRef := isMountedRef h;
     storage := storage h; requests := requests h; timers := timers h;
     console := console h |}.

Definition setLastSyncTime (t : option string) (h : HookState) : HookState :=
  {| st_isOnline := st_isOnline h; st_isSyncing := st_isSyncing h;
     st_pendingScans := st_pendingScans h; st_lastSyncTime := t;
     st_syncError := st_syncError h; st_deviceId := st_deviceId h;
     st_scanLogs := st_scanLogs h; isMountedRef := isMountedRef h;
     storage := storage h; requests := requests h; timers := timers h;
     console := console h |}.

Definition setScanLogs (logs : list Types.ScanLog) (h : HookState) : HookState :=
  {| st_isOnline := st_isOnline h; st_isSyncing := st_isSyncing h;
     st_pendingScans := st_pendingScans h; st_lastSyncTime := st_lastSyncTime h;
     st_syncError := st_syncError h; st_deviceId := st_deviceId h;
     st_scanLogs := logs; isMountedRef := isMountedRef h;
     storage := storage h; requests := requests h; timers := timers h;
     console := console h |}.

Definition setStorage (a : AsyncStorage) (h : HookState) : HookState :=
  {| st_isOnline := st_isOnline h; st_isSyncing := st_isSyncing h;
     st_pendingScans := st_pendingScans h; st_lastSyncTime := st_lastSyncTime h;
     st_syncError := st_syncError h; st_deviceId := st_deviceId h;
     st_scanLogs := st_scanLogs h; isMountedRef := isMountedRef h;
     storage := a; requests := requests h; timers := timers h;
     console := console h |}.

Definition mutateAsync (scan : PendingScan.t) (h : HookState) : HookState :=
  {| st_isOnline := st_isOnline h; st_isSyncing := st_isSyncing h;
     st_pendingScans := st_pendingScans h; st_lastSyncTime := st_lastSyncTime h;
     st_syncError := st_syncError h; st_deviceId := st_deviceId h;
     st_scanLogs := st_scanLogs h; isMountedRef := isMountedRef h;
     storage := storage h; requests := requests h ++ [scan]; timers := timers h;
     console := console h |}.

Definition setTimeout (ms : Q) (h : HookState) : HookState :=
  {| st_isOnline := st_isOnline h; st_isSyncing := st_isSyncing h;
     st_pendingScans := st_pendingScans h; st_lastSyncTime := st_lastSyncTime h;
     st_syncError := st_syncError h; st_deviceId := st_deviceId h;
     st_scanLogs := st_scanLogs h; isMountedRef := isMountedRef h;
     storage := storage h; requests := requests h; timers := timers h ++ [ms];
     console := console h |}.

Definition console_error (e : ConsoleEntry) (h : HookState) : HookState :=
  {| st_isOnline := st_isOnline h; st_isSyncing := st_isSyncing h;
     st_pendingScans := st_pendingScans h; st_lastSyncTime := st_lastSyncTime h;
     st_syncError := st_syncError h; st_deviceId := st_deviceId h;
     st_scanLogs := st_scanLogs h; isMountedRef := isMountedRef h;
     storage := storage h; requests := requests h; timers := timers h;
     console := console h ++ [e] |}.

Definition setItem_PENDING_SCANS (scans : list PendingScan.t) (a : AsyncStorage) : AsyncStorage :=
  {| PENDING_SCANS := Some scans; LOCAL_SCANS := LOCAL_SCANS a;
     LAST_SYNC := LAST_SYNC a; DEVICE_ID := DEVICE_ID a |}.

Definition setItem_LAST_SYNC (t : string) (a : AsyncStorage) : AsyncStorage :=
  {| PENDING_SCANS := PENDING_SCANS a; LOCAL_SCANS := LOCAL_SCANS a;
     LAST_SYNC := Some t; DEVICE_ID := DEVICE_ID a |}.

(** *** [savePendingScans]: write the queue to AsyncStorage, then to the cell.
    The write is awaited; it is taken to succeed. *)
Definition savePendingScans (scans : list PendingScan.t) (h : HookState) : HookState :=
  setPendingScans scans (setStorage (setItem_PENDING_SCANS scans (storage h)) h).





(** *** [allScanLogs]: confirmed rows followed by the pending ones *)
Definition toScanLog (p : PendingScan.t) : Types.ScanLog :=
  {| Types.id := PendingScan.id p;
     Types.participantId := PendingScan.participantId p;
     Types.checkpointId := PendingScan.checkpointId p;
     Types.timestamp := PendingScan.timestamp p;
     Types.deviceId := Some (PendingScan.deviceId p);
     Types.gpsLat := PendingScan.gpsLat p;
     Types.gpsLng := PendingScan.gpsLng p;
     Types.synced := false |}.

Definition allScanLogs (cl : Closure) : list Types.ScanLog :=
  scanLogs cl ++ map toScanLog (pendingScans cl).

(** *** [isDuplicateScan] *)
Definition isDuplicateScan (cl : Closure) (participantId : string) (checkpointId : Z) : bool :=
  let inSynced :=
    existsb (fun log => String.eqb (Types.participantId log) participantId
                        && Z.eqb (Types.checkpointId log) checkpointId)
            (scanLogs cl) in
  let inPending :=
    existsb (fun scan => String.eqb (PendingScan.participantId scan) participantId
                         && Z.eqb (PendingScan.checkpointId scan) checkpointId)
            (pendingScans cl) in
  inSynced || inPending.

(** *** [syncSingleScan]

    The call issues the request at once and suspends on it; [onSettled] is
    what runs when the awaited [mutateAsync] settles with [outcome].  Both
    branches rebuild the queue from [pendingScans cl], the array of the
    render that created the callback. *)
Definition onSettled (cl : Closure) (scan : PendingScan.t)
           (outcome : CreateScan.Outcome) (h : HookState) : bool * HookState :=
  match outcome with
  | CreateScan.Resolved result =>
      if CreateScan.success result || CreateScan.duplicate result then
        let updated :=
          filter (fun s => negb (String.eqb (PendingScan.id s) (PendingScan.id scan)))
                 (pendingScans cl) in
        (true, savePendingScans updated h)
      else (false, h)
  | CreateScan.Rejected error =>
      let h := console_error (error_FailedToSyncScan error) h in
      let updated :=
        map (fun s => if String.eqb (PendingScan.id s) (PendingScan.id scan)
                      then PendingScan.with_retryCount s (PendingScan.retryCount s + 1)
                      else s)
            (pendingScans cl) in
      let filtered :=
        filter (fun s => PendingScan.retryCount s <? MAX_RETRIES) updated in
      (false, savePendingScans filtered h)
  end.

Definition syncSingleScan (cl : Closure) (scan : PendingScan.t)
           (outcome : CreateScan.Outcome) (h : HookState) : bool * HookState :=
  onSettled cl scan outcome (mutateAsync scan h).

(** *** [addScan]

    [uuid] is the value of [crypto.randomUUID()], [now1] and [now2] the two
    [new Date().toISOString()] readings.  The call to [syncSingleScan] is
    not awaited: it issues its request and [addScan] resolves.  The first
    two components are the resolved value and the state at that moment; the
    third is the dispatch left in flight, settled later by [settleForked]. *)
Record AddScanResult : Type := {
  success : bool;
  duplicate : bool;
  scanLog : option Types.ScanLog
}.

Definition newPendingScan (cl : Closure) (participantId : string) (checkpointId : Z)
           (gpsLat gpsLng : option Q) (uuid now1 now2 : string) : PendingScan.t :=
  {| PendingScan.id := uuid;
     PendingScan.participantId := participantId;
     PendingScan.checkpointId := checkpointId;
     PendingScan.timestamp := now1;
     PendingScan.deviceId := deviceId cl;
     PendingScan.gpsLat := gpsLat;
     PendingScan.gpsLng := gpsLng;
     PendingScan.retryCount := 0;
     PendingScan.createdAt := now2 |}.

Definition addScan (cl : Closure) (participantId : string) (checkpointId : Z)
           (gpsLat gpsLng : option Q) (uuid now1 now2 : string) (h : HookState)
  : AddScanResult * HookState * option PendingScan.t :=
  if isDuplicateScan cl participantId checkpointId then
    ({| success := false; duplicate := true; scanLog := None |}, h, None)
  else
    let newScan := newPendingScan cl participantId checkpointId gpsLat gpsLng uuid now1 now2 in
    let updatedPending := pendingScans cl ++ [newScan] in
    let h := savePendingScans updatedPending h in
    let '(h, forked) :=
      if isOnline cl then (mutateAsync newScan h, Some newScan) else (h, None) in
    ({| success := true; duplicate := false; scanLog := Some (toScanLog newScan) |},
     h, forked).

(** The dispatch that [addScan] left in flight settles with [outcome]; the
    callback is the [syncSingleScan] of the same render as [addScan]. *)
Definition settleForked (cl : Closure) (forked : option PendingScan.t)
           (outcome : CreateScan.Outcome) (h : HookState) : HookState :=
  match forked with
  | Some scan => snd (onSettled cl scan outcome h)
  | None => h
  end.

(** *** [Array.prototype.sort] with a comparator: a stable sort.
    [x] goes in front of the first element it does not compare above. *)
Fixpoint insertSorted {A : Type} (cmp : A -> A -> Z) (x : A) (l : list A) : list A :=
  match l with
  | [] => [x]
  | y :: l' => if cmp x y <=? 0 then x :: y :: l' else y :: insertSorted cmp x l'
  end.

Definition sort {A : Type} (cmp : A -> A -> Z) (l : list A) : list A :=
  fold_right (insertSorted cmp) [] l.

Definition byRetryCount (a b : PendingScan.t) : Z :=
  PendingScan.retryCount a - PendingScan.retryCount b.

(** *** [syncPendingScans] *)

Definition scansToSync (cl : Closure) : list PendingScan.t :=
  let sortedScans := sort byRetryCount (pendingScans cl) in
  firstn BATCH_SIZE sortedScans.

(** The [for ... of] loop.  [server] settles each request, [random] is the
    [Math.random()] reading taken for the scan's backoff. *)
Fixpoint syncLoop (cl : Closure) (server : PendingScan.t -> CreateScan.Outcome)
         (random : PendingScan.t -> Q) (scans : list PendingScan.t)
         (h : HookState) : HookState :=
  match scans with
  | [] => h
  | scan :: rest =>
      if negb (isMountedRef h) then h
      else
        let h := if 0 <? PendingScan.retryCount scan
                 then setTimeout (getRetryDelay (PendingScan.retryCount scan) (random scan)) h
                 else h in
        let '(ok, h) := syncSingleScan cl scan (server scan) h in
        let h := if ok then setTimeout 50 h else h in
        syncLoop cl server random rest h
  end.

Definition syncGuard (cl : Closure) : bool :=
  negb (isOnline cl) || isSyncing cl || (List.length (pendingScans cl) =? 0)%nat.

(** Up to the first suspension point of a cycle that passed the guard. *)
Definition syncBegin (h : HookState) : HookState :=
  setSyncError None (setIsSyncing true h).

(** After the loop: record the time, refetch, and the [finally] block.
    [refetched] is the data [refetchScanLogs] brings back.  The awaited
    storage write and refetch are taken to succeed, so the [catch] branch
    (which prints [error_SyncFailed] and sets [syncError]) is not entered;
    [syncSingleScan] handles its own rejections. *)
Definition syncEnd (now : string) (refetched : list Types.ScanLog) (h : HookState) : HookState :=
  let h := setStorage (setItem_LAST_SYNC now (storage h)) h in
  let h := setLastSyncTime (Some now) h in
  let h := setScanLogs refetched h in
  if isMountedRef h then setIsSyncing false h else h.

Definition syncPendingScans (cl : Closure) (server : PendingScan.t -> CreateScan.Outcome)
           (random : PendingScan.t -> Q) (now : string)
           (refetched : list Types.ScanLog) (h : HookState) : HookState :=
  if syncGuard cl then h
  else syncEnd now refetched (syncLoop cl server random (scansToSync cl) (syncBegin h)).

(** Ascending order of the sort, and the update that the [catch] branch of
    [syncSingleScan] maps over the queue. *)
Definition retryLe (a b : PendingScan.t) : Prop :=
  PendingScan.retryCount a <= PendingScan.retryCount b.

Definition bumped (scan s : PendingScan.t) : PendingScan.t :=
  if String.eqb (PendingScan.id s) (PendingScan.id scan)
  then PendingScan.with_retryCount s (PendingScan.retryCount s + 1)
  else s.

(** *** The batch as the specification words it (for comparison with
    [scansToSync]): only events whose [nextEligibleAt] is not after [now]
    are kept, then sorted by [retryCount], then cut at [BATCH_SIZE].
    [PendingScan] has no such field, so it is supplied from outside. *)
Definition spec_scansToSync (nextEligibleAt : PendingScan.t -> Z) (now : Z)
           (pending : list PendingScan.t) : list PendingScan.t :=
  let eligible := filter (fun s => nextEligibleAt s <=? now) pending in
  firstn BATCH_SIZE (sort byRetryCount eligible).

(** *** The rest of the hook

    A JavaScript [if (v)] on a string read from storage is false for [null]
    and for the empty string. *)
Definition truthy (v : option string) : option string :=
  match v with
  | Some EmptyString => None
  | _ => v
  end.

Definition setItem_DEVICE_ID (d : string) (a : AsyncStorage) : AsyncStorage :=
  {| PENDING_SCANS := PENDING_SCANS a; LOCAL_SCANS := LOCAL_SCANS a;
     LAST_SYNC := LAST_SYNC a; DEVICE_ID := Some d |}.

(** [getOrCreateDeviceId]; [randomUUID] is the value of [crypto.randomUUID()]. *)
Definition getOrCreateDeviceId (randomUUID : string) (a : AsyncStorage)
  : string * AsyncStorage :=
  match truthy (DEVICE_ID a) with
  | Some deviceId => (deviceId, a)
  | None =>
      let deviceId := String.append "device-" randomUUID in
      (deviceId, setItem_DEVICE_ID deviceId a)
  end.

Definition setDeviceId (d : string) (h : HookState) : HookState :=
  {| st_isOnline := st_isOnline h; st_isSyncing := st_isSyncing h;
     st_pendingScans := st_pendingScans h; st_lastSyncTime := st_lastSyncTime h;
     st_syncError := st_syncError h; st_deviceId := d;
     st_scanLogs := st_scanLogs h; isMountedRef := isMountedRef h;
     storage := storage h; requests := requests h; timers := timers h;
     console := console h |}.

Definition setIsOnline (b : bool) (h : HookState) : HookState :=
  {| st_isOnline := b; st_isSyncing := st_isSyncing h;
     st_pendingScans := st_pendingScans h; st_lastSyncTime := st_lastSyncTime h;
     st_syncError := st_syncError h; st_deviceId := st_deviceId h;
     st_scanLogs := st_scanLogs h; isMountedRef := isMountedRef h;
     storage := storage h; requests := requests h; timers := timers h;
     console := console h |}.

(** The cells as [useState] and [useRef] initialise them on the first
    render of a process that finds [a] in AsyncStorage. *)
Definition firstRender (a : AsyncStorage) : HookState :=
  {| st_isOnline := true; st_isSyncing := false;
     st_pendingScans := []; st_lastSyncTime := None;
     st_syncError := None; st_deviceId := EmptyString;
     st_scanLogs := []; isMountedRef := true;
     storage := a; requests := []; timers := []; console := [] |}.

(** The [init] function of the first effect: device id, stored queue,
    stored time of the last sync. *)
Definition init (randomUUID : string) (h : HookState) : HookState :=
  let '(id, a) := getOrCreateDeviceId randomUUID (storage h) in
  let h := setDeviceId id (setStorage a h) in
  let h := match PENDING_SCANS (storage h) with
           | Some stored => setPendingScans stored h
           | None => h
           end in
  match truthy (LAST_SYNC (storage h)) with
  | Some lastSync => setLastSyncTime (Some lastSync) h
  | None => h
  end.

(** The state NetInfo reports ([boolean | null] fields) and the value the
    listener computes from it:
    [Boolean(state.isConnected && state.isInternetReachable !== false)]. *)
Record NetInfoState : Type := {
  isConnected : option bool;
  isInternetReachable : option bool
}.

Definition online (state : NetInfoState) : bool :=
  match isConnected state with
  | Some true =>
      match isInternetReachable state with
      | Some false => false
      | _ => true
      end
  | _ => false
  end.

(** The NetInfo listener of the render [cl]. *)
Definition onNetInfo (cl : Closure) (state : NetInfoState)
           (server : PendingScan.t -> CreateScan.Outcome) (random : PendingScan.t -> Q)
           (now : string) (refetched : list Types.ScanLog) (h : HookState) : HookState :=
  let h := setIsOnline (online state) h in
  if online state && (0 <? List.length (pendingScans cl))%nat
  then syncPendingScans cl server random now refetched h
  else h.

(** [forceSync]; [refetched'] is what the second [refetchScanLogs] brings. *)
Definition forceSync (cl : Closure) (server : PendingScan.t -> CreateScan.Outcome)
           (random : PendingScan.t -> Q) (now : string)
           (refetched refetched' : list Types.ScanLog) (h : HookState) : HookState :=
  if negb (isOnline cl) then
    setSyncError (Some "No internet connection. Scans will sync when online."%string) h
  else
    let h := syncPendingScans cl server random now refetched h in
    setScanLogs refetched' h.

(** [getLogsForParticipant] *)
Definition getLogsForParticipant (cl : Closure) (participantId : string)
  : list Types.ScanLog :=
  filter (fun log => String.eqb (Types.participantId log) participantId) (allScanLogs cl).

(** Every queued event is below the retry ceiling. *)
Definition belowCeiling (q : list PendingScan.t) : Prop :=
  Forall (fun s => PendingScan.retryCount s < MAX_RETRIES) q.

Definition confirmedOutcome (o : CreateScan.Outcome) : bool :=
  match o with
  | CreateScan.Resolved result => CreateScan.success result || CreateScan.duplicate result
  | CreateScan.Rejected _ => false
  end.

(** The cells and storage keys that a dispatch has no business with. *)
Definition syncCells (h : HookState) :=
  (st_isOnline h, st_isSyncing h, st_lastSyncTime h, st_syncError h,
   st_deviceId h, st_scanLogs h, isMountedRef h,
   LOCAL_SCANS (storage h), LAST_SYNC (storage h), DEVICE_ID (storage h)).

(** A wait that does not exceed the cap. *)
Definition shortWait (d : Q) : Prop := (d <= inject_Z MAX_RETRY_DELAY)%Q.

Definition idIsNot (scan s : PendingScan.t) : bool :=
  negb (String.eqb (PendingScan.id s) (PendingScan.id scan)).

End OfflineSync.

(** ** The secondary sink (server-side Google Sheets logger) *)

Module GoogleSheetsLogger.

Record ScanLogData : Type := {
  uuid : string;
  participantUuid : string;
  participantName : string;
  participantBadge : string;
  checkpointId : Z;
  checkpointName : string;
  deviceId : option string;
  gpsLat : option string;
  gpsLng : option string;
  scannedAt : string
}.

Record GoogleSheetsConfig : Type := {
  spreadsheetId : string;
  apiKey : string;
  enabled : bool
}.

Inductive ConsoleEntry : Type :=
| warn_NotConfigured
| warn_SetEnvironment
| log_Initialized
| error_ConnectionTestFailed
| log_ConnectedTo
| log_Retrying (n : nat)
| error_DroppingScan (uuid : string)
| log_StillPending (n : nat)
| error_FailedToLogScan
| error_ErrorLoggingScan
| log_LoggedScan (participantName checkpointName : string)
| log_AddedToRetryQueue (n : nat).

(** The private fields of the class. *)
Record t : Type := {
  config : option GoogleSheetsConfig;
  isInitialized : bool;
  failedScans : list ScanLogData;
  retryInterval : bool;               (* is the 30 s interval installed? *)
  console : list ConsoleEntry
}.

Definition maxRetryQueueSize : nat := 1000.

(** The queue respects its capacity. *)
Definition bounded (g : t) : Prop :=
  (List.length (failedScans g) <= maxRetryQueueSize)%nat.

Definition new : t :=
  {| config := None; isInitialized := false; failedScans := [];
     retryInterval := false; console := [] |}.

Definition say (e : ConsoleEntry) (g : t) : t :=
  {| config := config g; isInitialized := isInitialized g;
     failedScans := failedScans g; retryInterval := retryInterval g;
     console := console g ++ [e] |}.

Definition setFailedScans (q : list ScanLogData) (g : t) : t :=
  {| config := config g; isInitialized := isInitialized g;
     failedScans := q; retryInterval := retryInterval g;
     console := console g |}.

(** How a [fetch] against the Sheets API ends. *)
Inductive FetchOutcome : Type :=
| ResponseOk
| ResponseNotOk
| FetchThrew.

Definition nonEmpty (v : option string) : option string :=
  match v with
  | Some EmptyString => None
  | _ => v
  end.

(** [init]: [env] holds [GOOGLE_SHEETS_ID] and [GOOGLE_SHEETS_API_KEY],
    [connection] is how the fetch of [testConnection] ends. *)
Definition init (env : option string * option string) (connection : FetchOutcome) (g : t) : t :=
  if isInitialized g then g
  else
    match nonEmpty (fst env), nonEmpty (snd env) with
    | Some sid, Some key =>
        let g := {| config := Some {| spreadsheetId := sid; apiKey := key; enabled := true |};
                    isInitialized := true; failedScans := failedScans g;
                    retryInterval := retryInterval g; console := console g |} in
        let g := say log_Initialized g in
        match connection with
        | ResponseOk => say log_ConnectedTo g
        | _ =>
            let g := say error_ConnectionTestFailed g in
            {| config := Some {| spreadsheetId := sid; apiKey := key; enabled := false |};
               isInitialized := isInitialized g; failedScans := failedScans g;
               retryInterval := retryInterval g; console := console g |}
        end
    | _, _ =>
        let g := say warn_SetEnvironment (say warn_NotConfigured g) in
        {| config := None; isInitialized := true; failedScans := failedScans g;
           retryInterval := retryInterval g; console := console g |}
    end.

Definition active (g : t) : bool :=
  match config g with
  | Some c => enabled c
  | None => false
  end.

(** [logScanDirect]: one append to the sheet, no queueing. *)
Definition logScanDirect (outcome : FetchOutcome) (scanData : ScanLogData) (g : t) : t * bool :=
  if negb (active g) then (g, true)
  else
    match outcome with
    | ResponseOk =>
        (say (log_LoggedScan (participantName scanData) (checkpointName scanData)) g, true)
    | ResponseNotOk => (say error_FailedToLogScan g, false)
    | FetchThrew => (say error_ErrorLoggingScan g, false)
    end.

Definition startRetryProcessor (g : t) : t :=
  if retryInterval g then g
  else {| config := config g; isInitialized := isInitialized g;
          failedScans := failedScans g; retryInterval := true;
          console := console g |}.

(** [logScan] *)
Definition logScan (env : option string * option string) (connection outcome : FetchOutcome)
           (scanData : ScanLogData) (g : t) : t * bool :=
  let g := if isInitialized g then g else init env connection g in
  if negb (active g) then (g, true)
  else
    let g := startRetryProcessor g in
    let '(g, ok) := logScanDirect outcome scanData g in
    if negb ok then
      if (List.length (failedScans g) <? maxRetryQueueSize)%nat then
        let g := setFailedScans (failedScans g ++ [scanData]) g in
        (say (log_AddedToRetryQueue (List.length (failedScans g))) g, ok)
      else (g, ok)
    else (g, ok).

(** One iteration of the loop inside the interval callback. *)
Definition retryOne (outcome : FetchOutcome) (scan : ScanLogData) (g : t) : t :=
  let '(g, ok) := logScanDirect outcome scan g in
  if negb ok then
    if (List.length (failedScans g) <? maxRetryQueueSize)%nat then
      setFailedScans (failedScans g ++ [scan]) g
    else say (error_DroppingScan (uuid scan)) g
  else g.

(** The part of the callback in front of the loop, and the part behind it. *)
Definition tickBegin (g : t) : list ScanLogData * t :=
  let g := say (log_Retrying (List.length (failedScans g))) g in
  let scansToRetry := failedScans g in
  (scansToRetry, setFailedScans [] g).

Definition tickEnd (g : t) : t :=
  if (0 <? List.length (failedScans g))%nat
  then say (log_StillPending (List.length (failedScans g))) g
  else g.

(** The interval callback when nothing else runs between its awaits. *)
Definition retryTick (sink : ScanLogData -> FetchOutcome) (g : t) : t :=
  if (List.length (failedScans g) =? 0)%nat then g
  else
    let '(scansToRetry, g) := tickBegin g in
    tickEnd (fold_left (fun g scan => retryOne (sink scan) scan g) scansToRetry g).

(** The callback awaits every append, so [logScan] calls and later ticks can
    run between two iterations.  [System] keeps the logger together with the
    snapshots that suspended callbacks still have to work through; an
    [Event] is one uninterrupted piece of work. *)
Record System : Type := {
  logger : t;
  suspended : list (list ScanLogData)
}.

Inductive Event : Type :=
| CallLogScan (env : option string * option string)
              (connection outcome : FetchOutcome) (scanData : ScanLogData)
| TimerFires
| Resume (i : nat) (outcome : FetchOutcome).

Fixpoint replaceNth {A : Type} (i : nat) (x : option A) (l : list A) : list A :=
  match l, i with
  | [], _ => []
  | _ :: l', O => match x with Some y => y :: l' | None => l' end
  | z :: l', S i' => z :: replaceNth i' x l'
  end.

Definition step (e : Event) (s : System) : System :=
  match e with
  | CallLogScan env connection outcome scanData =>
      {| logger := fst (logScan env connection outcome scanData (logger s));
         suspended := suspended s |}
  | TimerFires =>
      if negb (retryInterval (logger s)) then s
      else if (List.length (failedScans (logger s)) =? 0)%nat then s
      else
        let '(scansToRetry, g) := tickBegin (logger s) in
        {| logger := g; suspended := suspended s ++ [scansToRetry] |}
  | Resume i outcome =>
      match nth_error (suspended s) i with
      | None => s
      | Some [] =>
          {| logger := tickEnd (logger s);
             suspended := replaceNth i None (suspended s) |}
      | Some (scan :: rest) =>
          {| logger := retryOne outcome scan (logger s);
             suspended := replaceNth i (Some rest) (suspended s) |}
      end
  end.

Definition run (events : list Event) (s : System) : System :=
  fold_left (fun s e => step e s) events s.

Definition boot : System := {| logger := new; suspended := [] |}.

(** A configured deployment whose sheet rejects every append. *)
Definition configured : option string * option string :=
  (Some "sheet-1"%string, Some "key-1"%string).

Definition row (u : string) : ScanLogData :=
  {| uuid := u; participantUuid := "P1"; participantName := "Asha";
     participantBadge := "001"; checkpointId := 1; checkpointName := "Gheti";
     deviceId := None; gpsLat := None; gpsLng := None;
     scannedAt := "2025-12-31T06:00:00.000Z" |}.

Definition thousandFailures : list Event :=
  repeat (CallLogScan configured ResponseOk ResponseNotOk (row "early")) 1000.

Definition full : t := logger (run thousandFailures boot).

(** [logScans]: the scans are logged one after the other; [sink] tells how
    the append of each one ends. *)
Record LogScansResult : Type := {
  success : bool;
  logged : nat;
  errors : nat
}.

Definition logScansLoop (env : option string * option string) (connection : FetchOutcome)
           (sink : ScanLogData -> FetchOutcome) (scans : list ScanLogData) (g : t)
  : t * nat * nat :=
  fold_left
    (fun acc scan =>
       let '(g, logged, errors) := acc in
       let '(g, ok) := logScan env connection (sink scan) scan g in
       if ok then (g, S logged, errors) else (g, logged, S errors))
    scans (g, 0%nat, 0%nat).

Definition logScans (env : option string * option string) (connection : FetchOutcome)
           (sink : ScanLogData -> FetchOutcome) (scans : list ScanLogData) (g : t)
  : t * LogScansResult :=
  let g := if isInitialized g then g else init env connection g in
  if negb (active g) then
    (g, {| success := true; logged := 0; errors := 0 |})
  else
    let '(g, logged, errors) := logScansLoop env connection sink scans g in
    (g, {| success := (errors =? 0)%nat; logged := logged; errors := errors |}).

Definition appendFails (o : FetchOutcome) : bool :=
  match o with
  | ResponseOk => false
  | _ => true
  end.

End GoogleSheetsLogger.

(** ** The authoritative write path ([scanLogs.create]) *)

Module AuthoritativeStore.

(** Modelled from the spec: the server procedure behind [scanLogs.create]
    (the router and the database layer) is not among the sources, only its
    callers and tests are.  A stored [Confirmed] event carries the client's
    idempotency [id] and the uniqueness key (participantRef, checkpointId). *)
Record ScanEvent : Type := {
  id : string;
  participantRef : string;
  checkpointId : Z;
  originDevice : string;
  occurredAt : string
}.

(** Modelled from the spec: the reply [{accepted, duplicate}] of [create]
    (the tests read the first field under the name [success]). *)
Record Reply : Type := { accepted : bool; duplicate : bool }.

Definition key (e : ScanEvent) : string * Z := (participantRef e, checkpointId e).

Definition sameKey (a b : ScanEvent) : bool :=
  String.eqb (participantRef a) (participantRef b) && Z.eqb (checkpointId a) (checkpointId b).

(** Modelled from the spec: [create] checks for an existing [Confirmed] row
    sharing (participantRef, checkpointId) and inserts in one atomic step;
    a request whose key is present is answered [duplicate] and stores
    nothing, which covers the re-delivery of an accepted [id]. *)
Definition create (e : ScanEvent) (store : list ScanEvent) : Reply * list ScanEvent :=
  if existsb (sameKey e) store
  then ({| accepted := false; duplicate := true |}, store)
  else ({| accepted := true; duplicate := false |}, store ++ [e]).

(** Modelled from the spec: atomic [create] calls take effect one after the
    other, in their arrival order. *)
Fixpoint createAll (es : list ScanEvent) (store : list ScanEvent)
  : list Reply * list ScanEvent :=
  match es with
  | [] => ([], store)
  | e :: es' =>
      let '(r, store) := create e store in
      let '(rs, store) := createAll es' store in
      (r :: rs, store)
  end.

(** Invariant I1: no two stored events share a key. *)
Definition I1 (store : list ScanEvent) : Prop := NoDup (map key store).

Definition acceptedCount (rs : list Reply) : nat :=
  List.length (filter accepted rs).

Definition hasKey (k : string * Z) (e : ScanEvent) : bool :=
  String.eqb (participantRef e) (fst k) && Z.eqb (checkpointId e) (snd k).

Definition isAccepted : Reply := {| accepted := true; duplicate := false |}.
Definition isDuplicate : Reply := {| accepted := false; duplicate := true |}.

(** Two devices scanning participant P1 at checkpoint 1. *)
Definition fromA : ScanEvent :=
  {| id := "id-A"; participantRef := "P1"; checkpointId := 1;
     originDevice := "A"; occurredAt := "2025-12-31T06:00:00.000Z" |}.
Definition fromB : ScanEvent :=
  {| id := "id-B"; participantRef := "P1"; checkpointId := 1;
     originDevice := "B"; occurredAt := "2025-12-31T06:00:00.400Z" |}.

End AuthoritativeStore.

(** ** Concrete devices and events used in the examples *)

Module Scenario.
Import OfflineSync.
Local Open Scope string_scope.

Definition scan (uuid participant : string) (checkpoint retries : Z) : PendingScan.t :=
  {| PendingScan.id := uuid;
     PendingScan.participantId := participant;
     PendingScan.checkpointId := checkpoint;
     PendingScan.timestamp := "2025-12-31T06:00:00.000Z";
     PendingScan.deviceId := "device-A";
     PendingScan.gpsLat := None;
     PendingScan.gpsLng := None;
     PendingScan.retryCount := retries;
     PendingScan.createdAt := "2025-12-31T06:00:00.000Z" |}.

Definition confirmed (uuid participant : string) (checkpoint : Z) : Types.ScanLog :=
  {| Types.id := uuid;
     Types.participantId := participant;
     Types.checkpointId := checkpoint;
     Types.timestamp := "2025-12-31T05:00:00.000Z";
     Types.deviceId := Some "device-B";
     Types.gpsLat := None;
     Types.gpsLng := None;
     Types.synced := true |}.

(** A mounted hook whose cell and stored copy hold [queue]. *)
Definition mounted (online syncing : bool) (queue : list PendingScan.t)
           (logs : list Types.ScanLog) : HookState :=
  {| st_isOnline := online; st_isSyncing := syncing;
     st_pendingScans := queue; st_lastSyncTime := None;
     st_syncError := None; st_deviceId := "device-A";
     st_scanLogs := logs; isMountedRef := true;
     storage := {| PENDING_SCANS := Some queue; LOCAL_SCANS := None;
                   LAST_SYNC := None; DEVICE_ID := Some "device-A" |};
     requests := []; timers := []; console := [] |}.

Definition accepts : PendingScan.t -> CreateScan.Outcome :=
  fun _ => CreateScan.Resolved {| CreateScan.success := true; CreateScan.duplicate := false |}.

Definition unreachable : CreateScan.Outcome :=
  CreateScan.Rejected "Network request failed".

Definition noJitter : PendingScan.t -> Q := fun _ => 0%Q.

Definition e1 : PendingScan.t := scan "e1" "P1" 1 0.
Definition e2 : PendingScan.t := scan "e2" "P2" 1 0.
Definition e1_retried : PendingScan.t := scan "e1" "P1" 1 1.
Definition e1_last_try : PendingScan.t := scan "e1" "P1" 1 9.
End Scenario.

(** * Properties *)

Module OfflineSyncFacts.
Import OfflineSync.
Local Open Scope string_scope.
Local Open Scope Z_scope.
Local Open Scope list_scope.




(** *** The stable sort *)

Section Sorting.
Context {A : Type} (cmp : A -> A -> Z).

Lemma insertSorted_perm (x : A) (l : list A) :
  Permutation (insertSorted cmp x l) (x :: l).
Proof.
  induction l as [|y l IH]; simpl.
  - apply Permutation_refl.
  - destruct (cmp x y <=? 0).
    + apply Permutation_refl.
    + eapply perm_trans; [ apply perm_skip, IH | apply perm_swap ].
Qed.

Lemma sort_perm (l : list A) : Permutation (sort cmp l) l.
Proof.
  induction l as [|x l IH]; simpl.
  - constructor.
  - eapply perm_trans; [ apply insertSorted_perm | apply perm_skip, IH ].
Qed.

Lemma sort_length (l : list A) : List.length (sort cmp l) = List.length l.
Proof. apply Permutation_length, sort_perm. Qed.
End Sorting.

Lemma insertSorted_HdRel (x y : PendingScan.t) (l : list PendingScan.t) :
  retryLe y x -> HdRel retryLe y l -> HdRel retryLe y (insertSorted byRetryCount x l).
Proof.
  intros Hyx Hhd. destruct l as [|z l]; simpl.
  - constructor. exact Hyx.
  - destruct (byRetryCount x z <=? 0); constructor.
    + exact Hyx.
    + inversion Hhd; assumption.
Qed.

Lemma insertSorted_sorted (x : PendingScan.t) (l : list PendingScan.t) :
  Sorted retryLe l -> Sorted retryLe (insertSorted byRetryCount x l).
Proof.
  induction 1 as [|y l Hs IH Hhd]; simpl.
  - repeat constructor.
  - destruct (byRetryCount x y <=? 0) eqn:E.
    + constructor; [ constructor; assumption | constructor ].
      unfold retryLe, byRetryCount in *. apply Z.leb_le in E. lia.
    + constructor; [ exact IH | ].
      apply insertSorted_HdRel; [ | exact Hhd ].
      unfold retryLe, byRetryCount in *. apply Z.leb_gt in E. lia.
Qed.

Lemma sort_sorted (l : list PendingScan.t) : Sorted retryLe (sort byRetryCount l).
Proof.
  induction l as [|x l IH]; simpl.
  - constructor.
  - apply insertSorted_sorted, IH.
Qed.

Lemma retryLe_trans : Relations_1.Transitive retryLe.
Proof. intros a b c; unfold retryLe; lia. Qed.

Lemma sort_strongly_sorted (l : list PendingScan.t) :
  StronglySorted retryLe (sort byRetryCount l).
Proof. apply Sorted_StronglySorted; [ exact retryLe_trans | apply sort_sorted ]. Qed.

(** Events with the same [retryCount] keep the order they had in the queue. *)
Lemma insertSorted_stable (k : Z) (x : PendingScan.t) (l : list PendingScan.t) :
  filter (fun s => PendingScan.retryCount s =? k) (insertSorted byRetryCount x l)
  = filter (fun s => PendingScan.retryCount s =? k) (x :: l).
Proof.
  induction l as [|y l IH]; [ reflexivity | ].
  cbn [insertSorted]. destruct (byRetryCount x y <=? 0) eqn:E; [ reflexivity | ].
  cbn [filter] in *. rewrite IH.
  destruct (PendingScan.retryCount x =? k) eqn:Ex;
    destruct (PendingScan.retryCount y =? k) eqn:Ey; try reflexivity.
  apply Z.eqb_eq in Ex, Ey. apply Z.leb_gt in E. unfold byRetryCount in E. lia.
Qed.

Lemma sort_stable (k : Z) (l : list PendingScan.t) :
  filter (fun s => PendingScan.retryCount s =? k) (sort byRetryCount l)
  = filter (fun s => PendingScan.retryCount s =? k) l.
Proof.
  induction l as [|x l IH]; [ reflexivity | ].
  cbn [sort fold_right]. fold (sort byRetryCount l).
  rewrite insertSorted_stable. cbn [filter]. rewrite IH. reflexivity.
Qed.

(** *** What the dispatcher and the loop leave untouched *)

Lemma onSettled_isMountedRef cl scan outcome h :
  isMountedRef (snd (onSettled cl scan outcome h)) = isMountedRef h.
Proof.
  unfold onSettled. destruct outcome as [result|error].
  - destruct (CreateScan.success result || CreateScan.duplicate result); reflexivity.
  - reflexivity.
Qed.

Lemma onSettled_requests cl scan outcome h :
  requests (snd (onSettled cl scan outcome h)) = requests h.
Proof.
  unfold onSettled. destruct outcome as [result|error].
  - destruct (CreateScan.success result || CreateScan.duplicate result); reflexivity.
  - reflexivity.
Qed.

Lemma syncSingleScan_requests cl scan outcome h :
  requests (snd (syncSingleScan cl scan outcome h)) = requests h ++ [scan].
Proof. unfold syncSingleScan. rewrite onSettled_requests. reflexivity. Qed.

Lemma syncSingleScan_isMountedRef cl scan outcome h :
  isMountedRef (snd (syncSingleScan cl scan outcome h)) = isMountedRef h.
Proof. unfold syncSingleScan. rewrite onSettled_isMountedRef. reflexivity. Qed.

Lemma syncLoop_requests cl server random scans :
  forall h, isMountedRef h = true ->
    requests (syncLoop cl server random scans h) = requests h ++ scans
    /\ isMountedRef (syncLoop cl server random scans h) = true.
Proof.
  induction scans as [|scan rest IH]; intros h Hm; cbn [syncLoop].
  - rewrite app_nil_r. split; [ reflexivity | exact Hm ].
  - rewrite Hm. cbn [negb].
    set (h1 := if 0 <? PendingScan.retryCount scan
               then setTimeout _ h else h).
    assert (Hm1 : isMountedRef h1 = true)
      by (subst h1; destruct (0 <? PendingScan.retryCount scan); exact Hm).
    assert (Hr1 : requests h1 = requests h)
      by (subst h1; destruct (0 <? PendingScan.retryCount scan); reflexivity).
    pose proof (syncSingleScan_requests cl scan (server scan) h1) as Hr2.
    pose proof (syncSingleScan_isMountedRef cl scan (server scan) h1) as Hm2.
    destruct (syncSingleScan cl scan (server scan) h1) as [ok h2].
    cbn [snd] in Hr2, Hm2.
    set (h3 := if ok then setTimeout 50 h2 else h2).
    assert (Hm3 : isMountedRef h3 = true)
      by (subst h3; destruct ok; cbn; rewrite Hm2; exact Hm1).
    assert (Hr3 : requests h3 = requests h2) by (subst h3; destruct ok; reflexivity).
    destruct (IH h3 Hm3) as [Hreq Hmnt]. split; [ | exact Hmnt ].
    rewrite Hreq, Hr3, Hr2, Hr1, <- app_assoc. reflexivity.
Qed.

Lemma syncEnd_requests now refetched h :
  requests (syncEnd now refetched h) = requests h.
Proof. unfold syncEnd. cbn. destruct (isMountedRef h); reflexivity. Qed.

(** *** The cycle *)

Lemma syncPendingScans_requests cl server random now refetched h :
  syncGuard cl = false -> isMountedRef h = true ->
  requests (syncPendingScans cl server random now refetched h)
  = requests h ++ scansToSync cl.
Proof.
  intros Hg Hm. unfold syncPendingScans. rewrite Hg.
  rewrite syncEnd_requests.
  destruct (syncLoop_requests cl server random (scansToSync cl) (syncBegin h)) as [Hr _].
  - exact Hm.
  - exact Hr.
Qed.

(** C6 (as the code has it).  A cycle that passes its guard on a mounted
    hook dispatches the first [BATCH_SIZE] events of its snapshot sorted
    ascending by [retryCount], in that order: the sorted list is a stable
    rearrangement of the whole snapshot, nothing is filtered out by time,
    and at most 50 requests are issued. *)
Theorem syncPendingScans_dispatch_order cl server random now refetched h :
  syncGuard cl = false -> isMountedRef h = true ->
  let sortedScans := sort byRetryCount (pendingScans cl) in
  requests (syncPendingScans cl server random now refetched h)
    = requests h ++ firstn BATCH_SIZE sortedScans
  /\ Permutation sortedScans (pendingScans cl)
  /\ StronglySorted retryLe sortedScans
  /\ (forall k, filter (fun s => PendingScan.retryCount s =? k) sortedScans
                = filter (fun s => PendingScan.retryCount s =? k) (pendingScans cl))
  /\ (List.length (firstn BATCH_SIZE sortedScans) <= 50)%nat.
Proof.
  intros Hg Hm sortedScans. repeat split.
  - apply (syncPendingScans_requests cl server random now refetched h Hg Hm).
  - apply sort_perm.
  - apply sort_strongly_sorted.
  - intro k. apply sort_stable.
  - rewrite length_firstn. apply Nat.le_min_l.
Qed.

Lemma syncPendingScans_dispatch_order_witness :
  requests (syncPendingScans
              (render (Scenario.mounted true false [Scenario.e1_retried; Scenario.e2] []))
              Scenario.accepts Scenario.noJitter "t"%string []
              (Scenario.mounted true false [Scenario.e1_retried; Scenario.e2] []))
  = [Scenario.e2; Scenario.e1_retried].
Proof.
  destruct (syncPendingScans_dispatch_order
              (render (Scenario.mounted true false [Scenario.e1_retried; Scenario.e2] []))
              Scenario.accepts Scenario.noJitter "t"%string []
              (Scenario.mounted true false [Scenario.e1_retried; Scenario.e2] []))
    as (Hreq & _); [ reflexivity | reflexivity | ].
  exact Hreq.
Defined.

(** C6 as stated fails: an event that failed a moment ago, not yet eligible
    by any clock ([nextEligibleAt = 2000 > now = 0]), is dispatched by the
    cycle, where the batch restricted to eligible events is empty. *)
Lemma syncPendingScans_dispatches_ineligible :
  requests (syncPendingScans
              (render (Scenario.mounted true false [Scenario.e1_retried] []))
              Scenario.accepts Scenario.noJitter "t"%string []
              (Scenario.mounted true false [Scenario.e1_retried] []))
  <> requests (Scenario.mounted true false [Scenario.e1_retried] [])
     ++ spec_scansToSync (fun _ => 2000) 0 [Scenario.e1_retried].
Proof. vm_compute. discriminate. Qed.

(** *** Polling *)



(** *** Submission *)



(** When the callback is the one of the current render and the stored copy
    agrees with the cell, the persisted queue is the old one plus the event. *)
Lemma addScan_appends_to_store
      participantId checkpointId gpsLat gpsLng uuid now1 now2 h :
  isDuplicateScan (render h) participantId checkpointId = false ->
  PENDING_SCANS (storage h) = Some (st_pendingScans h) ->
  PENDING_SCANS (storage (snd (fst (addScan (render h) participantId checkpointId
                                             gpsLat gpsLng uuid now1 now2 h))))
  = option_map (fun q => q ++ [newPendingScan (render h) participantId checkpointId
                                              gpsLat gpsLng uuid now1 now2])
               (PENDING_SCANS (storage h)).
Proof.
  intros Hdup Hst. unfold addScan. rewrite Hdup, Hst.
  destruct (isOnline (render h)); reflexivity.
Qed.

(** C10.  When [isDuplicateScan] answers true, [addScan] resolves to
    [{success: false, duplicate: true}], the whole state (queue cell,
    AsyncStorage, the merged scan view) is the one before the call, no
    request is issued and no dispatch is left in flight. *)
Theorem addScan_duplicate_changes_nothing
        cl participantId checkpointId gpsLat gpsLng uuid now1 now2 h :
  isDuplicateScan cl participantId checkpointId = true ->
  let out := addScan cl participantId checkpointId gpsLat gpsLng uuid now1 now2 h in
  let res := fst (fst out) in
  let h' := snd (fst out) in
  success res = false /\ duplicate res = true /\ scanLog res = None
  /\ h' = h
  /\ st_pendingScans h' = st_pendingScans h
  /\ storage h' = storage h
  /\ allScanLogs (render h') = allScanLogs (render h)
  /\ requests h' = requests h
  /\ snd out = None.
Proof.
  intros Hdup out res h'. subst out res h'. unfold addScan. rewrite Hdup.
  cbn. repeat split; reflexivity.
Qed.

Lemma addScan_duplicate_changes_nothing_witness :
  snd (fst (addScan (render (Scenario.mounted true false [Scenario.e1] []))
                    "P1" 1 None None "e9" "t" "t"
                    (Scenario.mounted true false [Scenario.e1] [])))
  = Scenario.mounted true false [Scenario.e1] [].
Proof.
  destruct (addScan_duplicate_changes_nothing
              (render (Scenario.mounted true false [Scenario.e1] []))
              "P1" 1 None None "e9" "t" "t"
              (Scenario.mounted true false [Scenario.e1] []))
    as (_ & _ & _ & Hsame & _); [ reflexivity | ].
  exact Hsame.
Defined.

(** *** The dispatcher *)

Lemma onSettled_confirmed cl scan result h :
  CreateScan.success result || CreateScan.duplicate result = true ->
  let h' := snd (onSettled cl scan (CreateScan.Resolved result) h) in
  let kept := filter (fun s => negb (String.eqb (PendingScan.id s) (PendingScan.id scan)))
                     (pendingScans cl) in
  st_pendingScans h' = kept /\ PENDING_SCANS (storage h') = Some kept.
Proof. intros Hok. cbn. rewrite Hok. split; reflexivity. Qed.

Lemma onSettled_rejected cl scan error h :
  let h' := snd (onSettled cl scan (CreateScan.Rejected error) h) in
  let kept := filter (fun s => PendingScan.retryCount s <? MAX_RETRIES)
                     (map (bumped scan) (pendingScans cl)) in
  st_pendingScans h' = kept /\ PENDING_SCANS (storage h') = Some kept.
Proof. split; reflexivity. Qed.

Lemma filter_all {A : Type} (f : A -> bool) (l : list A) :
  Forall (fun x => f x = true) l -> filter f l = l.
Proof.
  induction 1 as [|x l Hx _ IH]; [ reflexivity | ].
  cbn. rewrite Hx, IH. reflexivity.
Qed.

Lemma map_bumped_absent scan (l : list PendingScan.t) :
  ~ In (PendingScan.id scan) (map PendingScan.id l) -> map (bumped scan) l = l.
Proof.
  induction l as [|s l IH]; [ reflexivity | ].
  cbn [map In]. intros Hn. unfold bumped at 1.
  destruct (String.eqb_spec (PendingScan.id s) (PendingScan.id scan)) as [E|E].
  - exfalso. apply Hn. left. exact E.
  - rewrite IH; [ reflexivity | ]. intro Hin. apply Hn. right. exact Hin.
Qed.

(** X6.  With the callback of the current render, a confirmed or duplicate
    response removes the events carrying that [id] and nothing else. *)
Lemma dispatch_confirmed_current h scan result :
  CreateScan.success result || CreateScan.duplicate result = true ->
  let h' := snd (syncSingleScan (render h) scan (CreateScan.Resolved result) h) in
  forall s, In s (st_pendingScans h')
            <-> In s (st_pendingScans h) /\ PendingScan.id s <> PendingScan.id scan.
Proof.
  intros Hok h' s. subst h'. unfold syncSingleScan.
  destruct (onSettled_confirmed (render h) scan result (mutateAsync scan h) Hok) as [Hst _].
  rewrite Hst. cbn [render pendingScans]. rewrite filter_In.
  destruct (String.eqb_spec (PendingScan.id s) (PendingScan.id scan)); cbn;
    intuition congruence.
Qed.

(** X7.  With the callback of the current render and every queued event below
    the ceiling, a rejected request bumps the [retryCount] of the events
    carrying that [id] and keeps the others; the bumped ones stay only
    while still below [MAX_RETRIES]. *)
Lemma dispatch_rejected_current h scan error :
  Forall (fun s => PendingScan.retryCount s < MAX_RETRIES) (st_pendingScans h) ->
  let h' := snd (syncSingleScan (render h) scan (CreateScan.Rejected error) h) in
  forall s, In s (st_pendingScans h')
            <-> (In s (st_pendingScans h) /\ PendingScan.id s <> PendingScan.id scan)
                \/ (exists s0, In s0 (st_pendingScans h)
                               /\ PendingScan.id s0 = PendingScan.id scan
                               /\ s = PendingScan.with_retryCount s0 (PendingScan.retryCount s0 + 1)
                               /\ PendingScan.retryCount s0 + 1 < MAX_RETRIES).
Proof.
  intros Hall h' s. subst h'. unfold syncSingleScan.
  destruct (onSettled_rejected (render h) scan error (mutateAsync scan h)) as [Hst _].
  rewrite Hst. cbn [render pendingScans]. rewrite filter_In, in_map_iff.
  rewrite Forall_forall in Hall. split.
  - intros [(s0 & Hb & Hin) Hlt]. apply Z.ltb_lt in Hlt. unfold bumped in Hb.
    destruct (String.eqb_spec (PendingScan.id s0) (PendingScan.id scan)) as [E|E].
    + right. exists s0. subst s. cbn in Hlt. auto.
    + left. subst s. auto.
  - intros [[Hin Hne] | (s0 & Hin & Hid & Hs & Hlt)].
    + split.
      * exists s. split; [ | exact Hin ]. unfold bumped.
        destruct (String.eqb_spec (PendingScan.id s) (PendingScan.id scan)); congruence.
      * apply Z.ltb_lt. apply Hall. exact Hin.
    + split.
      * exists s0. split; [ | exact Hin ]. unfold bumped.
        destruct (String.eqb_spec (PendingScan.id s0) (PendingScan.id scan)); congruence.
      * apply Z.ltb_lt. subst s. exact Hlt.
Qed.

(** The dispatch forked by [addScan] runs with the array that [addScan]
    extended, which does not hold the new event: when the request is
    rejected, the queue written back is the old one. *)
Lemma forked_rejection_writes_old_queue
      cl participantId checkpointId gpsLat gpsLng uuid now1 now2 error h :
  isDuplicateScan cl participantId checkpointId = false ->
  isOnline cl = true ->
  ~ In uuid (map PendingScan.id (pendingScans cl)) ->
  Forall (fun s => PendingScan.retryCount s < MAX_RETRIES) (pendingScans cl) ->
  let out := addScan cl participantId checkpointId gpsLat gpsLng uuid now1 now2 h in
  let h2 := settleForked cl (snd out) (CreateScan.Rejected error) (snd (fst out)) in
  st_pendingScans h2 = pendingScans cl
  /\ PENDING_SCANS (storage h2) = Some (pendingScans cl).
Proof.
  intros Hdup Hon Hfresh Hall out h2. subst out h2.
  unfold addScan. rewrite Hdup, Hon. cbn [fst snd settleForked].
  set (newScan := newPendingScan _ _ _ _ _ _ _ _).
  destruct (onSettled_rejected cl newScan error
              (mutateAsync newScan (savePendingScans (pendingScans cl ++ [newScan]) h)))
    as [Hst Hsto].
  rewrite Hst, Hsto.
  rewrite (map_bumped_absent newScan (pendingScans cl)) by exact Hfresh.
  rewrite filter_all; [ split; reflexivity | ].
  eapply Forall_impl; [ | exact Hall ]. intros s Hs. apply Z.ltb_lt. exact Hs.
Qed.

(** C3, failing input.  A device that is online with an empty queue accepts
    a scan: [addScan] resolves with success and the queue holds the event.
    The request it left in flight is then rejected by the network: the
    queue written back is empty, in the cell and in AsyncStorage.  The event
    was neither kept nor given [retryCount = 1]. *)
Theorem forked_dispatch_failure_loses_scan :
  let h0 := Scenario.mounted true false [] [] in
  let out := addScan (render h0) "P1" 1 None None "e1" "t" "t" h0 in
  let h1 := snd (fst out) in
  let h2 := settleForked (render h0) (snd out) Scenario.unreachable h1 in
  success (fst (fst out)) = true
  /\ st_pendingScans h1 = [newPendingScan (render h0) "P1" 1 None None "e1" "t" "t"]
  /\ st_pendingScans h2 = []
  /\ PENDING_SCANS (storage h2) = Some [].
Proof. vm_compute. repeat split. Qed.

(** The same stale array inside one cycle: two events are both confirmed,
    and the write made for the second puts the first back in the queue. *)
Lemma cycle_restores_confirmed_scan :
  let h0 := Scenario.mounted true false [Scenario.e1; Scenario.e2] [] in
  let h' := syncPendingScans (render h0) Scenario.accepts Scenario.noJitter "t" [] h0 in
  requests h' = [Scenario.e1; Scenario.e2]
  /\ st_pendingScans h' = [Scenario.e1]
  /\ PENDING_SCANS (storage h') = Some [Scenario.e1].
Proof. vm_compute. repeat split. Qed.

(** C2, failing input.  An event on its last try ([retryCount = 9]) is
    dispatched by the callback of the current render and the request is
    rejected: the queue is written back without it, no other AsyncStorage
    key changes, and the console holds the one line that every failed
    dispatch prints.  Nothing records the event as abandoned. *)
Theorem retry_ceiling_drops_without_record :
  let h := Scenario.mounted true false [Scenario.e1_last_try] [] in
  let h' := snd (syncSingleScan (render h) Scenario.e1_last_try Scenario.unreachable h) in
  st_pendingScans h' = []
  /\ storage h' = {| PENDING_SCANS := Some []; LOCAL_SCANS := None;
                     LAST_SYNC := None; DEVICE_ID := Some "device-A" |}
  /\ console h' = [error_FailedToSyncScan "Network request failed"]
  /\ st_syncError h' = None.
Proof. vm_compute. repeat split. Qed.

(** *** Single flight *)

(** A call whose closure holds [isSyncing = true] returns at the guard. *)
Lemma syncPendingScans_guarded cl server random now refetched h :
  isSyncing cl = true ->
  syncPendingScans cl server random now refetched h = h.
Proof.
  intros Hs. unfold syncPendingScans, syncGuard. rewrite Hs.
  rewrite orb_true_r. reflexivity.
Qed.

(** C5, failing input.  A cycle has started from the callback of a render
    with [isSyncing = false]: it has set the cell to true and is suspended
    on its first request.  The same callback is invoked again (both
    listeners hold it): its guard reads the [false] of its own render and a
    second cycle dispatches the event a second time. *)
Theorem second_cycle_runs_while_first_in_progress :
  let h0 := Scenario.mounted true false [Scenario.e1] [] in
  let h1 := mutateAsync Scenario.e1 (syncBegin h0) in
  let h2 := syncPendingScans (render h0) Scenario.accepts Scenario.noJitter "t" [] h1 in
  st_isSyncing h1 = true
  /\ requests h1 = [Scenario.e1]
  /\ requests h2 = [Scenario.e1; Scenario.e1]
  /\ h2 <> h1.
Proof. vm_compute. repeat split. discriminate. Qed.

End OfflineSyncFacts.

Module AuthoritativeStoreFacts.
Import AuthoritativeStore.
Local Open Scope string_scope.
Local Open Scope Z_scope.
Local Open Scope list_scope.

Lemma sameKey_spec (a b : ScanEvent) : sameKey a b = true <-> key a = key b.
Proof.
  unfold sameKey, key. rewrite andb_true_iff, String.eqb_eq, Z.eqb_eq.
  split; [ intros [-> ->]; reflexivity | intros E; inversion E; auto ].
Qed.

Lemma hasKey_spec (k : string * Z) (e : ScanEvent) : hasKey k e = true <-> key e = k.
Proof.
  unfold hasKey, key. rewrite andb_true_iff, String.eqb_eq, Z.eqb_eq.
  destruct k as [p c]; cbn. split; [ intros [-> ->]; reflexivity | intros E; inversion E; auto ].
Qed.

Lemma existsb_sameKey (e : ScanEvent) (store : list ScanEvent) :
  existsb (sameKey e) store = true <-> In (key e) (map key store).
Proof.
  rewrite existsb_exists, in_map_iff. split.
  - intros (x & Hin & Hk). exists x. apply sameKey_spec in Hk. auto.
  - intros (x & Hk & Hin). exists x. split; [ exact Hin | ]. apply sameKey_spec. auto.
Qed.

Lemma create_absent (e : ScanEvent) (store : list ScanEvent) :
  ~ In (key e) (map key store) -> create e store = (isAccepted, store ++ [e]).
Proof.
  intros Hn. unfold create. destruct (existsb (sameKey e) store) eqn:E; [ | reflexivity ].
  apply existsb_sameKey in E. contradiction.
Qed.

Lemma create_present (e : ScanEvent) (store : list ScanEvent) :
  In (key e) (map key store) -> create e store = (isDuplicate, store).
Proof.
  intros Hin. unfold create. apply existsb_sameKey in Hin. rewrite Hin. reflexivity.
Qed.

(** I1 is an invariant of [create]. *)
Lemma create_preserves_I1 (e : ScanEvent) (store : list ScanEvent) :
  I1 store -> I1 (snd (create e store)).
Proof.
  intros H. unfold create. destruct (existsb (sameKey e) store) eqn:E; [ exact H | ].
  cbn [snd]. unfold I1 in *. rewrite map_app. cbn [map].
  apply NoDup_rev in H. rewrite <- rev_involutive. apply NoDup_rev.
  rewrite rev_app_distr. cbn. constructor; [ | exact H ].
  rewrite <- in_rev. intro Hin. apply existsb_sameKey in Hin. congruence.
Qed.

Lemma createAll_preserves_I1 (es : list ScanEvent) :
  forall store, I1 store -> I1 (snd (createAll es store)).
Proof.
  induction es as [|e es IH]; intros store H; [ exact H | ].
  cbn [createAll]. pose proof (create_preserves_I1 e store H) as H1.
  destruct (create e store) as [r store1]. cbn [snd] in H1.
  specialize (IH store1 H1). destruct (createAll es store1) as [rs store2]. exact IH.
Qed.

(** Once the key is stored, every further request for it is a duplicate. *)
Lemma createAll_present (k : string * Z) (es : list ScanEvent) :
  forall store, In k (map key store) -> Forall (fun e => key e = k) es ->
    createAll es store = (map (fun _ => isDuplicate) es, store).
Proof.
  induction es as [|e es IH]; intros store Hin Hall; [ reflexivity | ].
  pose proof (Forall_inv Hall) as He. pose proof (Forall_inv_tail Hall) as Hes.
  cbn beta in He. cbn [createAll map].
  rewrite create_present by (rewrite He; exact Hin).
  rewrite (IH store Hin Hes). reflexivity.
Qed.

(** Resubmitting an accepted event (same [id], hence same key) is answered
    [duplicate] and stores nothing. *)
Lemma create_again_is_duplicate (e : ScanEvent) (store : list ScanEvent) :
  let store1 := snd (create e store) in
  create e store1 = (isDuplicate, store1).
Proof.
  cbn. apply create_present. unfold create.
  destruct (existsb (sameKey e) store) eqn:E; cbn [snd].
  - apply existsb_sameKey. exact E.
  - rewrite map_app. apply in_or_app. right. left. reflexivity.
Qed.

Lemma filter_hasKey_absent (k : string * Z) (store : list ScanEvent) :
  ~ In k (map key store) -> filter (hasKey k) store = [].
Proof.
  induction store as [|x store IH]; [ reflexivity | ].
  cbn [map In filter]. intros Hn. destruct (hasKey k x) eqn:E.
  - apply hasKey_spec in E. exfalso. apply Hn. left. exact E.
  - apply IH. intro Hin. apply Hn. right. exact Hin.
Qed.

Lemma accepted_of_duplicates (es : list ScanEvent) :
  filter accepted (map (fun _ => isDuplicate) es) = []
  /\ filter duplicate (map (fun _ => isDuplicate) es) = map (fun _ => isDuplicate) es.
Proof.
  induction es as [|e es [IHa IHd]]; [ split; reflexivity | ].
  cbn. rewrite IHd. split; [ exact IHa | reflexivity ].
Qed.

(** C1.  On a store that satisfies I1 and holds no event for the key [k],
    let any non-empty batch of [create] calls for [k] take effect in any
    order [es'] (a permutation of the batch, whatever their ids): exactly
    one call is answered [accepted = true], every reply is either accepted
    or duplicate and all but one are duplicates, the first to arrive is the
    accepted one, the store still satisfies I1 and holds exactly one event
    for [k]. *)
Theorem create_same_key_exactly_one_accepted
        (store es : list ScanEvent) (k : string * Z) :
  I1 store -> ~ In k (map key store) -> es <> [] ->
  Forall (fun e => key e = k) es ->
  forall es', Permutation es es' ->
    let replies := fst (createAll es' store) in
    let store' := snd (createAll es' store) in
    acceptedCount replies = 1%nat
    /\ List.length (filter duplicate replies) = (List.length es - 1)%nat
    /\ List.length replies = List.length es
    /\ Forall (fun r => r = isAccepted \/ r = isDuplicate) replies
    /\ hd_error replies = Some isAccepted
    /\ I1 store'
    /\ List.length (filter (hasKey k) store') = 1%nat.
Proof.
  intros HI1 Habs Hne Hall es' Hperm replies store'. subst replies store'.
  assert (Hall' : Forall (fun e => key e = k) es')
    by (eapply Permutation_Forall; eassumption).
  pose proof (Permutation_length Hperm) as Hlen.
  pose proof (createAll_preserves_I1 es' store HI1) as HI1'.
  destruct es' as [|e rest].
  - apply Permutation_sym, Permutation_nil in Hperm. contradiction.
  - pose proof (Forall_inv Hall') as He. pose proof (Forall_inv_tail Hall') as Hrest.
    cbn beta in He. subst k.
    cbn [createAll] in *. rewrite create_absent in * by exact Habs.
    assert (Hin : In (key e) (map key (store ++ [e])))
      by (rewrite map_app; apply in_or_app; right; left; reflexivity).
    rewrite (createAll_present (key e) rest (store ++ [e]) Hin Hrest) in *.
    cbn [fst snd] in *. destruct (accepted_of_duplicates rest) as [Ha Hd].
    unfold acceptedCount. cbn [map filter accepted duplicate isAccepted].
    rewrite Ha, Hd. cbn [List.length hd_error]. rewrite !length_map.
    repeat split.
    + rewrite Hlen. cbn. lia.
    + rewrite Hlen. reflexivity.
    + constructor; [ left; reflexivity | ].
      apply Forall_forall. intros r Hr. apply in_map_iff in Hr.
      destruct Hr as (? & <- & _). right. reflexivity.
    + exact HI1'.
    + rewrite filter_app, (filter_hasKey_absent (key e) store Habs). cbn [filter app].
      assert (E : hasKey (key e) e = true) by (apply hasKey_spec; reflexivity).
      rewrite E. reflexivity.
Qed.

Lemma create_same_key_exactly_one_accepted_witness :
  acceptedCount (fst (createAll [fromB; fromA] [])) = 1%nat
  /\ List.length (filter duplicate (fst (createAll [fromB; fromA] []))) = 1%nat.
Proof.
  destruct (create_same_key_exactly_one_accepted [] [fromA; fromB] ("P1", 1))
    with (es' := [fromB; fromA]) as (Hacc & Hdup & _).
  - constructor.
  - intros [].
  - discriminate.
  - repeat constructor.
  - apply perm_swap.
  - split; [ exact Hacc | exact Hdup ].
Defined.

End AuthoritativeStoreFacts.

Module GoogleSheetsLoggerFacts.
Import GoogleSheetsLogger.
Local Open Scope string_scope.
Local Open Scope nat_scope.
Local Open Scope list_scope.

Lemma init_failedScans env connection g :
  failedScans (init env connection g) = failedScans g.
Proof.
  unfold init. destruct (isInitialized g); [ reflexivity | ].
  destruct (nonEmpty (fst env)), (nonEmpty (snd env)); try reflexivity.
  destruct connection; reflexivity.
Qed.

Lemma logScanDirect_failedScans outcome scanData g :
  failedScans (fst (logScanDirect outcome scanData g)) = failedScans g.
Proof.
  unfold logScanDirect. destruct (negb (active g)); [ reflexivity | ].
  destruct outcome; reflexivity.
Qed.

Lemma startRetryProcessor_failedScans g :
  failedScans (startRetryProcessor g) = failedScans g.
Proof. unfold startRetryProcessor. destruct (retryInterval g); reflexivity. Qed.

Lemma logScan_bounded env connection outcome scanData g :
  bounded g -> bounded (fst (logScan env connection outcome scanData g)).
Proof.
  unfold bounded, logScan. intros Hb.
  set (g0 := if isInitialized g then g else init env connection g).
  assert (H0 : failedScans g0 = failedScans g)
    by (subst g0; destruct (isInitialized g); [ reflexivity | apply init_failedScans ]).
  destruct (negb (active g0)); cbn [fst]; [ rewrite H0; exact Hb | ].
  pose proof (logScanDirect_failedScans outcome scanData (startRetryProcessor g0)) as H1.
  rewrite startRetryProcessor_failedScans, H0 in H1.
  destruct (logScanDirect outcome scanData (startRetryProcessor g0)) as [g1 ok].
  cbn [fst] in H1. destruct ok; cbn [negb fst]; [ rewrite H1; exact Hb | ].
  destruct (List.length (failedScans g1) <? maxRetryQueueSize) eqn:E; cbn [fst].
  - apply Nat.ltb_lt in E. cbn. rewrite length_app. cbn. lia.
  - rewrite H1. exact Hb.
Qed.

Lemma retryOne_bounded outcome scan g :
  bounded g -> bounded (retryOne outcome scan g).
Proof.
  unfold bounded, retryOne. intros Hb.
  pose proof (logScanDirect_failedScans outcome scan g) as H1.
  destruct (logScanDirect outcome scan g) as [g1 ok]. cbn [fst] in H1.
  destruct ok; cbn [negb]; [ rewrite H1; exact Hb | ].
  destruct (List.length (failedScans g1) <? maxRetryQueueSize) eqn:E.
  - apply Nat.ltb_lt in E. cbn. rewrite length_app. cbn. lia.
  - cbn. rewrite H1. exact Hb.
Qed.

Lemma tickBegin_bounded g : bounded (snd (tickBegin g)).
Proof. unfold bounded. cbn. apply Nat.le_0_l. Qed.

Lemma tickEnd_bounded g : bounded g -> bounded (tickEnd g).
Proof.
  unfold bounded, tickEnd. intros Hb.
  destruct (0 <? List.length (failedScans g)); exact Hb.
Qed.

Lemma retryLoop_bounded sink scans :
  forall g, bounded g ->
    bounded (fold_left (fun g scan => retryOne (sink scan) scan g) scans g).
Proof.
  induction scans as [|scan scans IH]; intros g Hb; [ exact Hb | ].
  cbn [fold_left]. apply IH, retryOne_bounded, Hb.
Qed.

(** An uninterrupted tick leaves at most [maxRetryQueueSize] entries. *)
Lemma retryTick_bounded sink g : bounded g -> bounded (retryTick sink g).
Proof.
  intros Hb. unfold retryTick.
  destruct (List.length (failedScans g) =? 0); [ exact Hb | ].
  destruct (tickBegin g) as [scansToRetry g1] eqn:E.
  apply tickEnd_bounded, retryLoop_bounded.
  pose proof (tickBegin_bounded g) as H. rewrite E in H. exact H.
Qed.

Lemma step_bounded e s : bounded (logger s) -> bounded (logger (step e s)).
Proof.
  intros Hb. destruct e as [env connection outcome scanData | | i outcome]; cbn [step].
  - cbn [logger]. apply logScan_bounded, Hb.
  - destruct (negb (retryInterval (logger s))); [ exact Hb | ].
    destruct (List.length (failedScans (logger s)) =? 0); [ exact Hb | ].
    pose proof (tickBegin_bounded (logger s)) as H.
    destruct (tickBegin (logger s)) as [scansToRetry g1]. exact H.
  - destruct (nth_error (suspended s) i) as [[|scan rest]|]; cbn [logger].
    + apply tickEnd_bounded, Hb.
    + apply retryOne_bounded, Hb.
    + exact Hb.
Qed.

(** The queue bound holds after every [logScan] call and after every piece
    of every tick, however they interleave. *)
Lemma run_bounded events :
  forall s, bounded (logger s) -> bounded (logger (run events s)).
Proof.
  unfold run. induction events as [|e events IH]; intros s Hb; [ exact Hb | ].
  cbn [fold_left]. apply IH, step_bounded, Hb.
Qed.

(** X20.  Starting from a new logger, after any sequence of [logScan] calls,
    timer firings and resumed retry iterations, in any interleaving, the
    retry queue holds at most 1000 entries. *)
Lemma reachable_bounded events :
  List.length (failedScans (logger (run events boot))) <= 1000.
Proof. apply (run_bounded events boot). cbn. apply Nat.le_0_l. Qed.

(** C8, failing input.  After a thousand failed appends the queue is full.
    The next [logScan] whose append fails returns the failure and leaves
    the queue as it was, the entry is not enqueued; the console gains the
    line of the failed append and nothing about the entry being dropped.
    The same entry arriving through the retry loop of a tick prints
    "Dropping scan ... - retry queue full". *)
Theorem logScan_overflow_is_silent :
  let out := logScan configured ResponseOk ResponseNotOk (row "late") full in
  List.length (failedScans full) = 1000
  /\ snd out = false
  /\ failedScans (fst out) = failedScans full
  /\ console (fst out) = console full ++ [error_FailedToLogScan]
  /\ console (retryOne ResponseNotOk (row "late") full)
     = console full ++ [error_FailedToLogScan; error_DroppingScan "late"].
Proof. vm_compute. repeat split. Qed.

End GoogleSheetsLoggerFacts.

(** * Further properties of the hook *)

Module OfflineSyncMore.
Import OfflineSync.
Local Open Scope string_scope.
Local Open Scope Z_scope.
Local Open Scope list_scope.

(** ** Device identity *)

Lemma getOrCreateDeviceId_pending (u : string) (a : AsyncStorage) :
  PENDING_SCANS (snd (getOrCreateDeviceId u a)) = PENDING_SCANS a.
Proof.
  unfold getOrCreateDeviceId. destruct (truthy (DEVICE_ID a)); reflexivity.
Qed.

(** X1.  [getOrCreateDeviceId] creates the identifier once: whatever it
    returns the first time is stored under [DEVICE_ID], and a later call
    returns the same identifier and writes nothing, whatever
    [crypto.randomUUID()] yields then.  The pending queue is never touched,
    and a non-empty stored identifier is returned as it is. *)
Theorem getOrCreateDeviceId_stable (u1 u2 : string) (a : AsyncStorage) :
  let d1 := fst (getOrCreateDeviceId u1 a) in
  let a1 := snd (getOrCreateDeviceId u1 a) in
  getOrCreateDeviceId u2 a1 = (d1, a1)
  /\ DEVICE_ID a1 = Some d1
  /\ PENDING_SCANS a1 = PENDING_SCANS a
  /\ (forall d, truthy (DEVICE_ID a) = Some d -> d1 = d /\ a1 = a).
Proof.
  unfold getOrCreateDeviceId.
  destruct (truthy (DEVICE_ID a)) as [d|] eqn:E; cbn [fst snd].
  - rewrite E. split; [ reflexivity | ]. split; [ | split; [ reflexivity | ] ].
    + unfold truthy in E. destruct (DEVICE_ID a) as [[|c r]|]; congruence.
    + intros d0 H. split; [ congruence | reflexivity ].
  - cbn. split; [ reflexivity | ]. split; [ reflexivity | ].
    split; [ reflexivity | ]. intros d H. discriminate.
Qed.

(** ** The duplicate check *)

Lemma existsb_pending_as_logs (p : string) (c : Z) (q : list PendingScan.t) :
  existsb (fun scan => String.eqb (PendingScan.participantId scan) p
                       && Z.eqb (PendingScan.checkpointId scan) c) q
  = existsb (fun log => String.eqb (Types.participantId log) p
                        && Z.eqb (Types.checkpointId log) c) (map toScanLog q).
Proof.
  induction q as [|s q IH]; [ reflexivity | ].
  cbn [map existsb]. rewrite IH. reflexivity.
Qed.

(** X2.  [isDuplicateScan] answers true exactly when the merged view
    [allScanLogs] (confirmed rows followed by pending ones) holds an entry
    with that participant and that checkpoint: it never rejects a key the
    device has not seen, and never lets through one it has. *)
Theorem isDuplicateScan_iff (cl : Closure) (p : string) (c : Z) :
  isDuplicateScan cl p c = true
  <-> exists log, In log (allScanLogs cl)
                  /\ Types.participantId log = p /\ Types.checkpointId log = c.
Proof.
  unfold isDuplicateScan, allScanLogs. rewrite existsb_pending_as_logs.
  rewrite <- existsb_app, existsb_exists. split.
  - intros (log & Hin & Hk). apply andb_true_iff in Hk. destruct Hk as [Hp Hc].
    exists log. rewrite String.eqb_eq in Hp. rewrite Z.eqb_eq in Hc. auto.
  - intros (log & Hin & Hp & Hc). exists log. split; [ exact Hin | ].
    apply andb_true_iff. rewrite String.eqb_eq, Z.eqb_eq. auto.
Qed.

Lemma isDuplicateScan_pending (cl : Closure) (s : PendingScan.t) :
  In s (pendingScans cl) ->
  isDuplicateScan cl (PendingScan.participantId s) (PendingScan.checkpointId s) = true.
Proof.
  intros Hin. unfold isDuplicateScan. apply orb_true_iff. right.
  apply existsb_exists. exists s. split; [ exact Hin | ].
  rewrite String.eqb_refl, Z.eqb_refl. reflexivity.
Qed.

(** ** Submission, followed by another render or by a restart *)

(** X3.  Once [addScan] has accepted a scan and the hook has rendered again,
    the same participant at the same checkpoint is refused: the second
    [addScan] answers [{success: false, duplicate: true}] and changes
    nothing, and the accepted scan shows in the participant's logs with
    [synced = false]. *)
Theorem addScan_then_same_key_is_duplicate
        cl p c lat lng uuid now1 now2 lat' lng' uuid' now1' now2' h :
  isDuplicateScan cl p c = false ->
  let newScan := newPendingScan cl p c lat lng uuid now1 now2 in
  let h1 := snd (fst (addScan cl p c lat lng uuid now1 now2 h)) in
  addScan (render h1) p c lat' lng' uuid' now1' now2' h1
  = ({| success := false; duplicate := true; scanLog := None |}, h1, None)
  /\ In (toScanLog newScan) (getLogsForParticipant (render h1) p)
  /\ Types.synced (toScanLog newScan) = false.
Proof.
  intros Hdup newScan h1.
  assert (Hq : st_pendingScans h1 = pendingScans cl ++ [newScan]).
  { subst h1. unfold addScan. rewrite Hdup. fold newScan.
    destruct (isOnline cl); reflexivity. }
  assert (Hin : In newScan (pendingScans (render h1))).
  { cbn [render pendingScans]. rewrite Hq. apply in_or_app. right. left. reflexivity. }
  repeat split.
  - assert (Hd : isDuplicateScan (render h1) p c = true)
      by exact (isDuplicateScan_pending (render h1) newScan Hin).
    unfold addScan at 1. rewrite Hd. reflexivity.
  - unfold getLogsForParticipant. apply filter_In. split.
    + unfold allScanLogs. apply in_or_app. right. apply in_map. exact Hin.
    + cbn. apply String.eqb_refl.
Qed.

Lemma addScan_then_same_key_is_duplicate_witness :
  fst (fst (addScan
              (render (snd (fst (addScan (render (Scenario.mounted false false [] []))
                                         "P1" 1 None None "e1" "t" "t"
                                         (Scenario.mounted false false [] [])))))
              "P1" 1 None None "e2" "u" "u"
              (snd (fst (addScan (render (Scenario.mounted false false [] []))
                                 "P1" 1 None None "e1" "t" "t"
                                 (Scenario.mounted false false [] []))))))
  = {| success := false; duplicate := true; scanLog := None |}.
Proof.
  destruct (addScan_then_same_key_is_duplicate
              (render (Scenario.mounted false false [] []))
              "P1" 1 None None "e1" "t" "t" None None "e2" "u" "u"
              (Scenario.mounted false false [] [])) as (H & _); [ reflexivity | ].
  rewrite H. reflexivity.
Defined.

(** X4.  An accepted scan survives a restart: a new process that runs [init]
    on the storage left by [addScan] finds the queue with the new event at
    its end, and its duplicate check refuses the same key. *)
Theorem addScan_survives_restart cl p c lat lng uuid now1 now2 randomUUID h :
  isDuplicateScan cl p c = false ->
  let newScan := newPendingScan cl p c lat lng uuid now1 now2 in
  let h1 := snd (fst (addScan cl p c lat lng uuid now1 now2 h)) in
  let h2 := init randomUUID (firstRender (storage h1)) in
  st_pendingScans h2 = pendingScans cl ++ [newScan]
  /\ isDuplicateScan (render h2) p c = true.
Proof.
  intros Hdup newScan h1 h2.
  assert (Hs : PENDING_SCANS (storage h1) = Some (pendingScans cl ++ [newScan])).
  { subst h1. unfold addScan. rewrite Hdup. fold newScan.
    destruct (isOnline cl); reflexivity. }
  assert (Hq : st_pendingScans h2 = pendingScans cl ++ [newScan]).
  { subst h2. unfold init.
    pose proof (getOrCreateDeviceId_pending randomUUID
                  (storage (firstRender (storage h1)))) as Hp.
    destruct (getOrCreateDeviceId randomUUID (storage (firstRender (storage h1))))
      as [d a]. cbn [snd] in Hp. cbn [firstRender storage] in Hp.
    cbn [setDeviceId setStorage storage]. rewrite Hp, Hs.
    cbn [setPendingScans storage].
    match goal with |- context [truthy ?v] => destruct (truthy v) end; reflexivity. }
  split; [ exact Hq | ].
  apply (isDuplicateScan_pending (render h2) newScan).
  cbn [render pendingScans]. rewrite Hq. apply in_or_app. right. left. reflexivity.
Qed.

Lemma addScan_survives_restart_witness :
  st_pendingScans
    (init "uuid-2"
          (firstRender
             (storage (snd (fst (addScan (render (Scenario.mounted false false [Scenario.e1] []))
                                         "P2" 1 None None "e2" "t" "t"
                                         (Scenario.mounted false false [Scenario.e1] [])))))))
  = [Scenario.e1;
     newPendingScan (render (Scenario.mounted false false [Scenario.e1] []))
                    "P2" 1 None None "e2" "t" "t"].
Proof.
  destruct (addScan_survives_restart
              (render (Scenario.mounted false false [Scenario.e1] []))
              "P2" 1 None None "e2" "t" "t" "uuid-2"
              (Scenario.mounted false false [Scenario.e1] [])) as (H & _);
    [ reflexivity | ].
  exact H.
Defined.

(** X5.  Two submissions made through the same [addScan] callback, with no
    render in between, both resolve with success, but each writes the queue
    of its render plus its own event: after the second, the queue holds the
    second event and not the first. *)
Theorem addScan_twice_same_closure_keeps_last
        cl p1 c1 p2 c2 lat lng uuid1 uuid2 now1 now2 h :
  isDuplicateScan cl p1 c1 = false ->
  isDuplicateScan cl p2 c2 = false ->
  uuid1 <> uuid2 ->
  ~ In uuid1 (map PendingScan.id (pendingScans cl)) ->
  let out1 := addScan cl p1 c1 lat lng uuid1 now1 now2 h in
  let out2 := addScan cl p2 c2 lat lng uuid2 now1 now2 (snd (fst out1)) in
  success (fst (fst out1)) = true /\ success (fst (fst out2)) = true
  /\ st_pendingScans (snd (fst out2))
     = pendingScans cl ++ [newPendingScan cl p2 c2 lat lng uuid2 now1 now2]
  /\ PENDING_SCANS (storage (snd (fst out2)))
     = Some (pendingScans cl ++ [newPendingScan cl p2 c2 lat lng uuid2 now1 now2])
  /\ ~ In uuid1 (map PendingScan.id (st_pendingScans (snd (fst out2)))).
Proof.
  intros H1 H2 Hne Hfresh out1 out2. subst out1 out2.
  unfold addScan. rewrite H1, H2. destruct (isOnline cl); cbn [fst snd];
    (repeat split; try reflexivity);
    cbn; rewrite map_app, in_app_iff; cbn; intuition congruence.
Qed.

Lemma addScan_twice_same_closure_keeps_last_witness :
  st_pendingScans
    (snd (fst (addScan (render (Scenario.mounted false false [] []))
                       "P2" 1 None None "e2" "t" "t"
                       (snd (fst (addScan (render (Scenario.mounted false false [] []))
                                          "P1" 1 None None "e1" "t" "t"
                                          (Scenario.mounted false false [] [])))))))
  = [newPendingScan (render (Scenario.mounted false false [] []))
                    "P2" 1 None None "e2" "t" "t"].
Proof.
  destruct (addScan_twice_same_closure_keeps_last
              (render (Scenario.mounted false false [] []))
              "P1" 1 "P2" 1 None None "e1" "e2" "t" "t"
              (Scenario.mounted false false [] [])) as (_ & _ & H & _).
  - reflexivity.
  - reflexivity.
  - discriminate.
  - intros [].
  - exact H.
Defined.

(** ** The dispatcher *)

Lemma dispatch_confirmed_current_witness :
  ~ In Scenario.e1
       (st_pendingScans
          (snd (syncSingleScan (render (Scenario.mounted true false [Scenario.e1; Scenario.e2] []))
                               Scenario.e1 (Scenario.accepts Scenario.e1)
                               (Scenario.mounted true false [Scenario.e1; Scenario.e2] [])))).
Proof.
  intro Hin.
  apply (OfflineSyncFacts.dispatch_confirmed_current
           (Scenario.mounted true false [Scenario.e1; Scenario.e2] [])
           Scenario.e1
           {| CreateScan.success := true; CreateScan.duplicate := false |}) in Hin;
    [ | reflexivity ].
  destruct Hin as [_ Hne]. apply Hne. reflexivity.
Defined.

Lemma dispatch_rejected_current_witness :
  In Scenario.e1_retried
     (st_pendingScans
        (snd (syncSingleScan (render (Scenario.mounted true false [Scenario.e1; Scenario.e2] []))
                             Scenario.e1 Scenario.unreachable
                             (Scenario.mounted true false [Scenario.e1; Scenario.e2] [])))).
Proof.
  apply (OfflineSyncFacts.dispatch_rejected_current
           (Scenario.mounted true false [Scenario.e1; Scenario.e2] [])
           Scenario.e1 "Network request failed").
  - repeat constructor.
  - right. exists Scenario.e1. repeat split. left. reflexivity.
Defined.

(** X8.  A response that is neither a success nor a duplicate makes
    [syncSingleScan] return false and write nothing: the queue, AsyncStorage
    and the console are as before, and no [retryCount] is raised. *)
Theorem syncSingleScan_refused_writes_nothing cl scan result h :
  CreateScan.success result = false -> CreateScan.duplicate result = false ->
  let out := syncSingleScan cl scan (CreateScan.Resolved result) h in
  fst out = false
  /\ st_pendingScans (snd out) = st_pendingScans h
  /\ storage (snd out) = storage h
  /\ console (snd out) = console h
  /\ requests (snd out) = requests h ++ [scan].
Proof.
  intros Hs Hd. unfold syncSingleScan, onSettled. rewrite Hs, Hd.
  cbn. repeat split.
Qed.

Lemma syncSingleScan_refused_writes_nothing_witness :
  st_pendingScans
    (snd (syncSingleScan (render (Scenario.mounted true false [Scenario.e1] []))
                         Scenario.e1
                         (CreateScan.Resolved
                            {| CreateScan.success := false; CreateScan.duplicate := false |})
                         (Scenario.mounted true false [Scenario.e1] [])))
  = [Scenario.e1].
Proof.
  destruct (syncSingleScan_refused_writes_nothing
              (render (Scenario.mounted true false [Scenario.e1] []))
              Scenario.e1
              {| CreateScan.success := false; CreateScan.duplicate := false |}
              (Scenario.mounted true false [Scenario.e1] [])) as (_ & H & _);
    [ reflexivity | reflexivity | ].
  exact H.
Defined.

Lemma filter_belowCeiling (q : list PendingScan.t) :
  belowCeiling (filter (fun s => PendingScan.retryCount s <? MAX_RETRIES) q).
Proof.
  apply Forall_forall. intros s Hin. apply filter_In in Hin.
  destruct Hin as [_ Hlt]. apply Z.ltb_lt. exact Hlt.
Qed.

Lemma filter_keeps_belowCeiling (f : PendingScan.t -> bool) (q : list PendingScan.t) :
  belowCeiling q -> belowCeiling (filter f q).
Proof.
  unfold belowCeiling. rewrite !Forall_forall. intros H s Hin.
  apply filter_In in Hin. apply H. tauto.
Qed.

(** X9.  Whatever array the callback holds, a rejected dispatch leaves no
    event at or above the ceiling in the queue it writes, and that queue is
    never longer than the one the callback started from. *)
Theorem rejected_dispatch_respects_ceiling cl scan error h :
  let h' := snd (syncSingleScan cl scan (CreateScan.Rejected error) h) in
  belowCeiling (st_pendingScans h')
  /\ PENDING_SCANS (storage h') = Some (st_pendingScans h')
  /\ (List.length (st_pendingScans h') <= List.length (pendingScans cl))%nat.
Proof.
  cbn. split; [ apply filter_belowCeiling | ]. split; [ reflexivity | ].
  eapply Nat.le_trans; [ apply filter_length_le | ]. rewrite length_map. apply Nat.le_refl.
Qed.

Lemma onSettled_belowCeiling cl scan outcome h :
  belowCeiling (pendingScans cl) -> belowCeiling (st_pendingScans h) ->
  belowCeiling (st_pendingScans (snd (onSettled cl scan outcome h))).
Proof.
  intros Hcl Hh. unfold onSettled. destruct outcome as [result|error].
  - destruct (CreateScan.success result || CreateScan.duplicate result); cbn.
    + apply filter_keeps_belowCeiling, Hcl.
    + exact Hh.
  - cbn. apply filter_belowCeiling.
Qed.

Lemma syncLoop_belowCeiling cl server random scans :
  belowCeiling (pendingScans cl) ->
  forall h, belowCeiling (st_pendingScans h) ->
            belowCeiling (st_pendingScans (syncLoop cl server random scans h)).
Proof.
  intros Hcl. induction scans as [|scan rest IH]; intros h Hh; cbn [syncLoop].
  - exact Hh.
  - destruct (negb (isMountedRef h)); [ exact Hh | ].
    set (h1 := if 0 <? PendingScan.retryCount scan then setTimeout _ h else h).
    assert (H1 : belowCeiling (st_pendingScans h1))
      by (subst h1; destruct (0 <? PendingScan.retryCount scan); exact Hh).
    pose proof (onSettled_belowCeiling cl scan (server scan) (mutateAsync scan h1) Hcl H1) as H2.
    fold (syncSingleScan cl scan (server scan) h1) in H2.
    destruct (syncSingleScan cl scan (server scan) h1) as [ok h2]. cbn [snd] in H2.
    apply IH. destruct ok; exact H2.
Qed.

(** X10.  The ceiling is an invariant of a whole cycle: if the queue of the
    render and the queue in the cell hold only events with
    [retryCount < MAX_RETRIES], so does the queue after [syncPendingScans],
    however the server answers. *)
Theorem syncPendingScans_keeps_ceiling cl server random now refetched h :
  belowCeiling (pendingScans cl) -> belowCeiling (st_pendingScans h) ->
  belowCeiling (st_pendingScans (syncPendingScans cl server random now refetched h)).
Proof.
  intros Hcl Hh. unfold syncPendingScans. destruct (syncGuard cl); [ exact Hh | ].
  pose proof (syncLoop_belowCeiling cl server random (scansToSync cl) Hcl (syncBegin h) Hh) as H.
  unfold syncEnd. cbn. destruct (isMountedRef _); exact H.
Qed.

Lemma syncPendingScans_keeps_ceiling_witness :
  belowCeiling
    (st_pendingScans
       (syncPendingScans (render (Scenario.mounted true false [Scenario.e1_last_try] []))
                         (fun _ => Scenario.unreachable) Scenario.noJitter "t" []
                         (Scenario.mounted true false [Scenario.e1_last_try] []))).
Proof.
  apply syncPendingScans_keeps_ceiling; repeat constructor.
Defined.

(** ** The cycle *)

Lemma syncPendingScans_guard_true cl server random now refetched h :
  syncGuard cl = true -> syncPendingScans cl server random now refetched h = h.
Proof. intros Hg. unfold syncPendingScans. rewrite Hg. reflexivity. Qed.

Lemma syncGuard_offline cl : isOnline cl = false -> syncGuard cl = true.
Proof. intros H. unfold syncGuard. rewrite H. reflexivity. Qed.

(** X11.  A call made offline, or while its render had [isSyncing] set, or
    with an empty queue, returns at once: the state is unchanged and no
    request is issued. *)
Theorem syncPendingScans_gated cl server random now refetched h :
  isOnline cl = false \/ isSyncing cl = true \/ pendingScans cl = [] ->
  syncPendingScans cl server random now refetched h = h.
Proof.
  intros H. apply syncPendingScans_guard_true. unfold syncGuard.
  destruct H as [H | [H | H]]; rewrite H; cbn;
    rewrite ?orb_true_r; reflexivity.
Qed.

Lemma syncPendingScans_gated_witness :
  syncPendingScans (render (Scenario.mounted false false [Scenario.e1] []))
                   Scenario.accepts Scenario.noJitter "t" []
                   (Scenario.mounted false false [Scenario.e1] [])
  = Scenario.mounted false false [Scenario.e1] [].
Proof.
  apply syncPendingScans_gated. left. reflexivity.
Defined.

Lemma onSettled_cells cl scan outcome h :
  syncCells (snd (onSettled cl scan outcome h)) = syncCells h.
Proof.
  unfold onSettled. destruct outcome as [result|error].
  - destruct (CreateScan.success result || CreateScan.duplicate result); reflexivity.
  - reflexivity.
Qed.

Lemma syncLoop_cells cl server random scans :
  forall h, syncCells (syncLoop cl server random scans h) = syncCells h.
Proof.
  induction scans as [|scan rest IH]; intros h; cbn [syncLoop]; [ reflexivity | ].
  destruct (negb (isMountedRef h)); [ reflexivity | ].
  set (h1 := if 0 <? PendingScan.retryCount scan then setTimeout _ h else h).
  assert (H1 : syncCells h1 = syncCells h)
    by (subst h1; destruct (0 <? PendingScan.retryCount scan); reflexivity).
  pose proof (onSettled_cells cl scan (server scan) (mutateAsync scan h1)) as H2.
  fold (syncSingleScan cl scan (server scan) h1) in H2.
  destruct (syncSingleScan cl scan (server scan) h1) as [ok h2]. cbn [snd] in H2.
  rewrite IH. destruct ok; cbn [syncCells setTimeout] in *; rewrite <- H1; exact H2.
Qed.

(** X12.  A cycle that passes its guard on a mounted hook ends the same way
    whatever the outcome of each request: [isSyncing] is false again, the
    time is recorded in the cell and under [LAST_SYNC], [syncError] is
    cleared, the scan logs are the refetched ones and [isOnline] and the
    device id are untouched. *)
Theorem syncPendingScans_epilogue cl server random now refetched h :
  syncGuard cl = false -> isMountedRef h = true ->
  let h' := syncPendingScans cl server random now refetched h in
  st_isSyncing h' = false
  /\ st_lastSyncTime h' = Some now
  /\ LAST_SYNC (storage h') = Some now
  /\ st_syncError h' = None
  /\ st_scanLogs h' = refetched
  /\ st_isOnline h' = st_isOnline h
  /\ DEVICE_ID (storage h') = DEVICE_ID (storage h).
Proof.
  intros Hg Hm h'. subst h'. unfold syncPendingScans. rewrite Hg.
  pose proof (syncLoop_cells cl server random (scansToSync cl) (syncBegin h)) as Hc.
  set (h1 := syncLoop cl server random (scansToSync cl) (syncBegin h)) in *.
  unfold syncCells in Hc. cbn [syncBegin setSyncError setIsSyncing st_isOnline st_isSyncing
    st_lastSyncTime st_syncError st_deviceId st_scanLogs isMountedRef storage] in Hc.
  injection Hc as Hon Hsy Hls Her Hdi Hlg Hmt Hlo Hla Hde.
  unfold syncEnd.
  cbn [setScanLogs setLastSyncTime setStorage isMountedRef].
  rewrite Hmt, Hm. cbn. repeat split; assumption.
Qed.

Lemma syncPendingScans_epilogue_witness :
  st_isSyncing
    (syncPendingScans (render (Scenario.mounted true false [Scenario.e1] []))
                      (fun _ => Scenario.unreachable) Scenario.noJitter "t" []
                      (Scenario.mounted true false [Scenario.e1] []))
  = false.
Proof.
  destruct (syncPendingScans_epilogue
              (render (Scenario.mounted true false [Scenario.e1] []))
              (fun _ => Scenario.unreachable) Scenario.noJitter "t" []
              (Scenario.mounted true false [Scenario.e1] [])) as (H & _);
    [ reflexivity | reflexivity | ].
  exact H.
Defined.

Lemma getRetryDelay_le_cap (k : Z) (random : Q) :
  (getRetryDelay k random <= inject_Z MAX_RETRY_DELAY)%Q.
Proof. unfold getRetryDelay. apply Q.le_min_r. Qed.

Lemma onSettled_timers cl scan outcome h :
  timers (snd (onSettled cl scan outcome h)) = timers h.
Proof.
  unfold onSettled. destruct outcome as [result|error].
  - destruct (CreateScan.success result || CreateScan.duplicate result); reflexivity.
  - reflexivity.
Qed.

Lemma syncLoop_timers cl server random scans :
  forall h, Forall shortWait (timers h) ->
            Forall shortWait (timers (syncLoop cl server random scans h)).
Proof.
  induction scans as [|scan rest IH]; intros h Hh; cbn [syncLoop]; [ exact Hh | ].
  destruct (negb (isMountedRef h)); [ exact Hh | ].
  set (h1 := if 0 <? PendingScan.retryCount scan then setTimeout _ h else h).
  assert (H1 : Forall shortWait (timers h1)).
  { subst h1. destruct (0 <? PendingScan.retryCount scan); [ | exact Hh ].
    cbn. apply Forall_app. split; [ exact Hh | ].
    constructor; [ apply getRetryDelay_le_cap | constructor ]. }
  pose proof (onSettled_timers cl scan (server scan) (mutateAsync scan h1)) as H2.
  fold (syncSingleScan cl scan (server scan) h1) in H2.
  destruct (syncSingleScan cl scan (server scan) h1) as [ok h2]. cbn [snd] in H2.
  apply IH. destruct ok; cbn; rewrite H2; [ | exact H1 ].
  apply Forall_app. split; [ exact H1 | ].
  constructor; [ unfold shortWait; cbn; discriminate | constructor ].
Qed.

(** X13.  No single wait inside a cycle exceeds [MAX_RETRY_DELAY]: every
    [setTimeout] the cycle awaits (a backoff before a retried event, or the
    50 ms pause after a success) lasts at most 30000 ms, whatever
    [Math.random()] returns. *)
Theorem syncPendingScans_waits_are_capped cl server random now refetched h :
  Forall (fun d => (d <= inject_Z MAX_RETRY_DELAY)%Q) (timers h) ->
  Forall (fun d => (d <= inject_Z MAX_RETRY_DELAY)%Q)
         (timers (syncPendingScans cl server random now refetched h)).
Proof.
  intros Hh. unfold syncPendingScans. destruct (syncGuard cl); [ exact Hh | ].
  pose proof (syncLoop_timers cl server random (scansToSync cl) (syncBegin h) Hh) as H.
  unfold syncEnd. cbn. destruct (isMountedRef _); exact H.
Qed.

Lemma syncPendingScans_waits_are_capped_witness :
  Forall (fun d => (d <= inject_Z MAX_RETRY_DELAY)%Q)
         (timers (syncPendingScans
                    (render (Scenario.mounted true false [Scenario.e1_last_try] []))
                    Scenario.accepts Scenario.noJitter "t" []
                    (Scenario.mounted true false [Scenario.e1_last_try] []))).
Proof.
  apply syncPendingScans_waits_are_capped. constructor.
Defined.

Lemma scansToSync_nonempty cl : syncGuard cl = false -> scansToSync cl <> [].
Proof.
  unfold syncGuard, scansToSync. intros Hg Hnil.
  apply (f_equal (@List.length _)) in Hnil.
  rewrite length_firstn, OfflineSyncFacts.sort_length in Hnil. cbn [List.length] in Hnil.
  destruct (pendingScans cl) as [|s q].
  - cbn in Hg. rewrite orb_true_r in Hg. discriminate.
  - cbn [List.length] in Hnil. unfold BATCH_SIZE in Hnil. lia.
Qed.

Lemma syncLoop_all_confirmed cl server random (d : PendingScan.t) scans :
  (forall s, confirmedOutcome (server s) = true) ->
  scans <> [] ->
  forall h, isMountedRef h = true ->
    st_pendingScans (syncLoop cl server random scans h)
    = filter (idIsNot (last scans d)) (pendingScans cl)
    /\ PENDING_SCANS (storage (syncLoop cl server random scans h))
       = Some (filter (idIsNot (last scans d)) (pendingScans cl)).
Proof.
  intros Hok. induction scans as [|scan rest IH]; intros Hne h Hm; [ congruence | ].
  cbn [syncLoop]. rewrite Hm. cbn [negb].
  set (h1 := if 0 <? PendingScan.retryCount scan then setTimeout _ h else h).
  assert (Hm1 : isMountedRef h1 = true)
    by (subst h1; destruct (0 <? PendingScan.retryCount scan); exact Hm).
  specialize (Hok scan) as Hs. unfold syncSingleScan, onSettled.
  destruct (server scan) as [result|error]; cbn [confirmedOutcome] in Hs; [ | discriminate ].
  rewrite Hs.
  destruct rest as [|scan' rest'].
  - cbn. split; reflexivity.
  - change (last (scan :: scan' :: rest') d) with (last (scan' :: rest') d).
    apply IH; [ discriminate | ]. cbn. exact Hm1.
Qed.

(** X14.  Inside one cycle every dispatch rebuilds the queue from the array
    of the render that started the cycle.  So when every request of the
    cycle is answered with a success or a duplicate, the queue left behind
    (in the cell and in AsyncStorage) is that array without the event
    dispatched last: the events confirmed earlier in the cycle are back in
    the queue. *)
Theorem syncPendingScans_all_confirmed cl server random now refetched h (d : PendingScan.t) :
  syncGuard cl = false -> isMountedRef h = true ->
  (forall s, confirmedOutcome (server s) = true) ->
  let h' := syncPendingScans cl server random now refetched h in
  st_pendingScans h' = filter (idIsNot (last (scansToSync cl) d)) (pendingScans cl)
  /\ PENDING_SCANS (storage h') = Some (filter (idIsNot (last (scansToSync cl) d)) (pendingScans cl)).
Proof.
  intros Hg Hm Hok h'. subst h'. unfold syncPendingScans. rewrite Hg.
  destruct (syncLoop_all_confirmed cl server random d (scansToSync cl) Hok
              (scansToSync_nonempty cl Hg) (syncBegin h) Hm) as [Hq Hs].
  unfold syncEnd. cbn [setScanLogs setLastSyncTime setStorage isMountedRef].
  match goal with |- context [if ?b then _ else _] => destruct b end;
    split; first [ exact Hq | exact Hs ].
Qed.

Lemma syncPendingScans_all_confirmed_witness :
  st_pendingScans
    (syncPendingScans
       (render (Scenario.mounted true false [Scenario.e1; Scenario.e2] []))
       Scenario.accepts Scenario.noJitter "t" []
       (Scenario.mounted true false [Scenario.e1; Scenario.e2] []))
  = [Scenario.e1].
Proof.
  destruct (syncPendingScans_all_confirmed
              (render (Scenario.mounted true false [Scenario.e1; Scenario.e2] []))
              Scenario.accepts Scenario.noJitter "t" []
              (Scenario.mounted true false [Scenario.e1; Scenario.e2] [])
              Scenario.e1) as (H & _);
    [ reflexivity | reflexivity | intros s; reflexivity | ].
  exact H.
Defined.

(** ** Triggers *)

(** X15.  The NetInfo listener created by a render that was offline does not
    dispatch when connectivity returns: it sets the [isOnline] cell to the
    reported value, and the [syncPendingScans] it calls returns at the guard
    because its render had [isOnline = false].  Queue, storage and request
    log are untouched. *)
Theorem onNetInfo_from_offline_render cl state server random now refetched h :
  isOnline cl = false ->
  let h' := onNetInfo cl state server random now refetched h in
  h' = setIsOnline (online state) h
  /\ st_isOnline h' = online state
  /\ requests h' = requests h
  /\ st_pendingScans h' = st_pendingScans h
  /\ storage h' = storage h.
Proof.
  intros Hoff h'. subst h'. unfold onNetInfo.
  destruct (online state && (0 <? List.length (pendingScans cl))%nat).
  - rewrite syncPendingScans_guard_true by (apply syncGuard_offline; exact Hoff).
    repeat split.
  - repeat split.
Qed.

Lemma onNetInfo_from_offline_render_witness :
  requests
    (onNetInfo (render (Scenario.mounted false false [Scenario.e1] []))
               {| isConnected := Some true; isInternetReachable := None |}
               Scenario.accepts Scenario.noJitter "t" []
               (Scenario.mounted false false [Scenario.e1] []))
  = [].
Proof.
  destruct (onNetInfo_from_offline_render
              (render (Scenario.mounted false false [Scenario.e1] []))
              {| isConnected := Some true; isInternetReachable := None |}
              Scenario.accepts Scenario.noJitter "t" []
              (Scenario.mounted false false [Scenario.e1] [])) as (_ & _ & H & _);
    [ reflexivity | ].
  exact H.
Defined.

(** X16.  The listener of a render that was online, with a non-empty queue
    and no cycle flagged, starts a cycle when NetInfo reports a connection
    whose reachability is true or still unknown, and only sets the cell
    when NetInfo reports no connection or an unreachable internet. *)
Theorem onNetInfo_from_online_render cl state server random now refetched h :
  syncGuard cl = false -> isMountedRef h = true ->
  requests (onNetInfo cl state server random now refetched h)
  = requests h ++ (if online state then scansToSync cl else [])
  /\ (online state = true
      <-> isConnected state = Some true /\ isInternetReachable state <> Some false).
Proof.
  intros Hg Hm. split.
  - unfold onNetInfo.
    assert (Hlen : (0 <? List.length (pendingScans cl))%nat = true).
    { unfold syncGuard in Hg. destruct (pendingScans cl); [ | reflexivity ].
      cbn in Hg. rewrite orb_true_r in Hg. discriminate. }
    rewrite Hlen, andb_true_r. destruct (online state).
    + exact (OfflineSyncFacts.syncPendingScans_requests
               cl server random now refetched (setIsOnline true h) Hg Hm).
    + cbn. rewrite app_nil_r. reflexivity.
  - unfold online. destruct (isConnected state) as [[|]|];
      destruct (isInternetReachable state) as [[|]|]; split;
      try discriminate; try (intros [H1 H2]; congruence); intros _; split; congruence.
Qed.

Lemma onNetInfo_from_online_render_witness :
  requests
    (onNetInfo (render (Scenario.mounted true false [Scenario.e1] []))
               {| isConnected := Some true; isInternetReachable := None |}
               Scenario.accepts Scenario.noJitter "t" []
               (Scenario.mounted true false [Scenario.e1] []))
  = [Scenario.e1].
Proof.
  destruct (onNetInfo_from_online_render
              (render (Scenario.mounted true false [Scenario.e1] []))
              {| isConnected := Some true; isInternetReachable := None |}
              Scenario.accepts Scenario.noJitter "t" []
              (Scenario.mounted true false [Scenario.e1] [])) as (H & _);
    [ reflexivity | reflexivity | ].
  exact H.
Defined.

(** X17.  [forceSync] dispatches exactly what one cycle of its render would
    (nothing when that render is offline, syncing or has an empty queue);
    offline it only sets [syncError] to the no-connection message. *)
Theorem forceSync_dispatches_one_cycle cl server random now refetched refetched' h :
  isMountedRef h = true ->
  let h' := forceSync cl server random now refetched refetched' h in
  requests h' = requests h ++ (if syncGuard cl then [] else scansToSync cl)
  /\ (isOnline cl = false ->
      h' = setSyncError (Some "No internet connection. Scans will sync when online.") h)
  /\ (isOnline cl = true -> st_scanLogs h' = refetched').
Proof.
  intros Hm h'. subst h'. unfold forceSync.
  destruct (isOnline cl) eqn:Hon; cbn [negb].
  - split; [ | split; [ discriminate | reflexivity ] ].
    cbn [setScanLogs requests]. destruct (syncGuard cl) eqn:Hg.
    + unfold syncPendingScans. rewrite Hg, app_nil_r. reflexivity.
    + apply OfflineSyncFacts.syncPendingScans_requests; [ exact Hg | exact Hm ].
  - split; [ | split; [ reflexivity | discriminate ] ].
    unfold syncGuard. rewrite Hon. cbn. rewrite app_nil_r. reflexivity.
Qed.

Lemma forceSync_dispatches_one_cycle_witness :
  requests (forceSync (render (Scenario.mounted true false [Scenario.e1] []))
                      Scenario.accepts Scenario.noJitter "t" [] []
                      (Scenario.mounted true false [Scenario.e1] []))
  = [Scenario.e1].
Proof.
  destruct (forceSync_dispatches_one_cycle
              (render (Scenario.mounted true false [Scenario.e1] []))
              Scenario.accepts Scenario.noJitter "t" [] []
              (Scenario.mounted true false [Scenario.e1] [])) as (H & _);
    [ reflexivity | ].
  exact H.
Defined.

(** ** Backoff *)

(** X18.  For the same jitter the delay does not decrease when the retry
    count grows. *)
Theorem getRetryDelay_monotone (k k' : Z) (random : Q) :
  k <= k' -> (getRetryDelay k random <= getRetryDelay k' random)%Q.
Proof.
  intros Hk. unfold getRetryDelay. apply Q.min_le_compat_r.
  assert (Hp : (Qpower (2 # 1) k <= Qpower (2 # 1) k')%Q)
    by (apply Qpower_le_compat_l; [ exact Hk | discriminate ]).
  apply Qplus_le_l. apply Qmult_le_l; [ reflexivity | exact Hp ].
Qed.

Lemma getRetryDelay_monotone_witness :
  (getRetryDelay 1 (1 # 2) <= getRetryDelay 2 (1 # 2))%Q.
Proof. apply getRetryDelay_monotone. discriminate. Defined.

(** X19.  From the fifth retry on the backoff is the cap: for
    [retryCount >= 5] and any non-negative jitter, [getRetryDelay] is
    exactly [MAX_RETRY_DELAY] = 30000 ms. *)
Theorem getRetryDelay_saturates (k : Z) (random : Q) :
  5 <= k -> (0 <= random)%Q ->
  (getRetryDelay k random == inject_Z MAX_RETRY_DELAY)%Q.
Proof.
  intros Hk Hr. unfold getRetryDelay. apply Q.min_r.
  assert (Hp : (Qpower (2 # 1) 5 <= Qpower (2 # 1) k)%Q)
    by (apply Qpower_le_compat_l; [ exact Hk | discriminate ]).
  assert (H32 : (Qpower (2 # 1) 5 == 32)%Q) by reflexivity.
  rewrite H32 in Hp.
  assert (Hb : (inject_Z BASE_RETRY_DELAY * 32 <= inject_Z BASE_RETRY_DELAY * Qpower (2 # 1) k)%Q)
    by (apply Qmult_le_l; [ reflexivity | exact Hp ]).
  assert (Hc : (inject_Z MAX_RETRY_DELAY <= inject_Z BASE_RETRY_DELAY * 32)%Q) by discriminate.
  assert (Hj : (0 <= random * 500)%Q) by (apply Qmult_le_0_compat; [ exact Hr | discriminate ]).
  set (x := (inject_Z BASE_RETRY_DELAY * Qpower (2 # 1) k)%Q) in *.
  eapply Qle_trans; [ exact Hc | ]. eapply Qle_trans; [ exact Hb | ].
  rewrite <- (Qplus_0_r x) at 1. apply Qplus_le_r. exact Hj.
Qed.

Lemma getRetryDelay_saturates_witness :
  (getRetryDelay 7 (1 # 3) == inject_Z MAX_RETRY_DELAY)%Q.
Proof. apply getRetryDelay_saturates; discriminate. Defined.

End OfflineSyncMore.

(** * Further properties of the Google Sheets logger *)

Module GoogleSheetsLoggerMore.
Import GoogleSheetsLogger.
Local Open Scope string_scope.
Local Open Scope nat_scope.
Local Open Scope list_scope.

(** ** [init] *)

Lemma init_initialized env connection g :
  isInitialized (init env connection g) = true.
Proof.
  unfold init. destruct (isInitialized g) eqn:E; [ exact E | ].
  destruct (nonEmpty (fst env)), (nonEmpty (snd env)); try reflexivity.
  destruct connection; reflexivity.
Qed.

(** X21.  [init] runs once: on an uninitialised logger it sets
    [isInitialized], leaves the retry queue alone, and ends up enabled
    exactly when both environment variables are non-empty and the connection
    test succeeds; any later [init], with whatever environment, changes
    nothing. *)
Theorem init_once env connection g :
  isInitialized g = false ->
  let g' := init env connection g in
  isInitialized g' = true
  /\ failedScans g' = failedScans g
  /\ (active g' = true
      <-> nonEmpty (fst env) <> None /\ nonEmpty (snd env) <> None
          /\ connection = ResponseOk)
  /\ (forall env' connection', init env' connection' g' = g').
Proof.
  intros Hu g'. subst g'.
  split; [ apply init_initialized | ].
  split; [ apply GoogleSheetsLoggerFacts.init_failedScans | ].
  split.
  - unfold init. rewrite Hu.
    destruct (nonEmpty (fst env)) as [sid|], (nonEmpty (snd env)) as [key|];
      [ destruct connection | | | ]; cbn;
      (split; [ try discriminate; intros _; repeat split; discriminate
              | intros (H1 & H2 & H3); try discriminate; try congruence ]).
  - intros env' connection'. unfold init at 1. rewrite init_initialized. reflexivity.
Qed.

Lemma init_once_witness :
  active (init configured ResponseOk new) = true.
Proof.
  destruct (init_once configured ResponseOk new) as (_ & _ & Ha & _);
    [ reflexivity | ].
  apply Ha. repeat split; discriminate.
Defined.

(** ** [logScan] *)

(** X22.  When the logger (initialised on demand) is not configured or not
    enabled, [logScan] reports success without doing anything else: nothing
    is queued, the retry interval is not installed, the console is silent
    apart from what [init] printed. *)
Theorem logScan_skips_when_inactive env connection outcome scanData g :
  let g0 := if isInitialized g then g else init env connection g in
  active g0 = false ->
  logScan env connection outcome scanData g = (g0, true)
  /\ failedScans g0 = failedScans g
  /\ retryInterval g0 = retryInterval g.
Proof.
  intros g0 Hin. unfold logScan. fold g0. rewrite Hin. cbn [negb].
  split; [ reflexivity | ]. subst g0. destruct (isInitialized g).
  - split; reflexivity.
  - split; [ apply GoogleSheetsLoggerFacts.init_failedScans | ].
    unfold init. destruct (isInitialized g); [ reflexivity | ].
    destruct (nonEmpty (fst env)), (nonEmpty (snd env)); try reflexivity.
    destruct connection; reflexivity.
Qed.

Lemma logScan_skips_when_inactive_witness :
  logScan (None, None) ResponseOk FetchThrew (row "r1") new
  = (init (None, None) ResponseOk new, true).
Proof.
  destruct (logScan_skips_when_inactive (None, None) ResponseOk FetchThrew (row "r1") new)
    as (H & _); [ reflexivity | ].
  exact H.
Defined.

Lemma logScan_active_effect env connection outcome scanData g :
  let g0 := if isInitialized g then g else init env connection g in
  active g0 = true ->
  let out := logScan env connection outcome scanData g in
  snd out = negb (appendFails outcome)
  /\ failedScans (fst out)
     = (if appendFails outcome && (List.length (failedScans g) <? maxRetryQueueSize)
        then failedScans g ++ [scanData] else failedScans g)
  /\ retryInterval (fst out) = true
  /\ active (fst out) = true
  /\ isInitialized (fst out) = isInitialized g0.
Proof.
  intros g0 Hact out. subst out. unfold logScan. fold g0. rewrite Hact. cbn [negb].
  assert (H0 : failedScans g0 = failedScans g)
    by (subst g0; destruct (isInitialized g);
        [ reflexivity | apply GoogleSheetsLoggerFacts.init_failedScans ]).
  assert (Hact' : active (startRetryProcessor g0) = true)
    by (unfold startRetryProcessor; destruct (retryInterval g0); exact Hact).
  assert (Hint : retryInterval (startRetryProcessor g0) = true)
    by (unfold startRetryProcessor; destruct (retryInterval g0) eqn:E; [ exact E | reflexivity ]).
  assert (Hq : failedScans (startRetryProcessor g0) = failedScans g)
    by (rewrite GoogleSheetsLoggerFacts.startRetryProcessor_failedScans; exact H0).
  assert (Hinit : isInitialized (startRetryProcessor g0) = isInitialized g0)
    by (unfold startRetryProcessor; destruct (retryInterval g0); reflexivity).
  unfold logScanDirect. rewrite Hact'. cbn [negb].
  destruct outcome; cbn [appendFails negb andb fst snd say setFailedScans failedScans
                          retryInterval active config isInitialized];
    try (rewrite Hq; destruct (List.length (failedScans g) <? maxRetryQueueSize);
         cbn [fst snd say setFailedScans failedScans retryInterval active config isInitialized]);
    rewrite ?Hq; repeat split; try reflexivity; try exact Hint; try exact Hact';
    try exact Hinit.
Qed.

(** X23.  On an enabled logger [logScan] returns the outcome of the append
    itself, also when the entry was queued for retry: it succeeds exactly
    when the append did.  A failed entry goes to the end of the queue if
    there is room and is left out otherwise; a successful one never touches
    the queue.  The retry interval is installed in either case. *)
Theorem logScan_when_active env connection outcome scanData g :
  let g0 := if isInitialized g then g else init env connection g in
  active g0 = true ->
  let out := logScan env connection outcome scanData g in
  snd out = negb (appendFails outcome)
  /\ failedScans (fst out)
     = (if appendFails outcome && (List.length (failedScans g) <? maxRetryQueueSize)
        then failedScans g ++ [scanData] else failedScans g)
  /\ retryInterval (fst out) = true
  /\ active (fst out) = true
  /\ isInitialized (fst out) = isInitialized g0.
Proof. exact (logScan_active_effect env connection outcome scanData g). Qed.

Lemma logScan_when_active_witness :
  snd (logScan configured ResponseOk ResponseNotOk (row "r1") new) = false
  /\ failedScans (fst (logScan configured ResponseOk ResponseNotOk (row "r1") new))
     = [row "r1"].
Proof.
  destruct (logScan_when_active configured ResponseOk ResponseNotOk (row "r1") new)
    as (H1 & H2 & _); [ reflexivity | ].
  split; [ exact H1 | exact H2 ].
Defined.

(** ** The retry loop *)

(** X24.  One iteration of the retry loop on an enabled logger whose append
    fails: with room in the queue the entry is put back at the end; with a
    full queue the queue is unchanged and the last console line is
    "Dropping scan <uuid> - retry queue full". *)
Theorem retryOne_when_append_fails outcome scan g :
  active g = true -> appendFails outcome = true ->
  let g' := retryOne outcome scan g in
  (List.length (failedScans g) < maxRetryQueueSize ->
   failedScans g' = failedScans g ++ [scan])
  /\ (maxRetryQueueSize <= List.length (failedScans g) ->
      failedScans g' = failedScans g
      /\ exists line, console g' = console g ++ [line; error_DroppingScan (uuid scan)]).
Proof.
  intros Hact Hfail g'. subst g'. unfold retryOne, logScanDirect. rewrite Hact. cbn [negb].
  destruct outcome; [ discriminate | | ]; cbn [negb fst snd say failedScans];
    (split; [ intros Hlt; apply Nat.ltb_lt in Hlt; rewrite Hlt; reflexivity
            | intros Hge; apply Nat.ltb_ge in Hge; rewrite Hge; split; [ reflexivity | ] ]).
  - exists error_FailedToLogScan. cbn. rewrite <- app_assoc. reflexivity.
  - exists error_ErrorLoggingScan. cbn. rewrite <- app_assoc. reflexivity.
Qed.

Lemma retryOne_when_append_fails_witness :
  failedScans (retryOne FetchThrew (row "r2") (fst (logScan configured ResponseOk ResponseNotOk (row "r1") new)))
  = [row "r1"; row "r2"].
Proof.
  destruct (retryOne_when_append_fails FetchThrew (row "r2")
              (fst (logScan configured ResponseOk ResponseNotOk (row "r1") new)))
    as (H & _); [ reflexivity | reflexivity | ].
  apply H. cbn. unfold maxRetryQueueSize. lia.
Defined.

Lemma retryOne_active outcome scan g :
  active g = true -> active (retryOne outcome scan g) = true.
Proof.
  intros Hact. unfold retryOne, logScanDirect. rewrite Hact. cbn [negb].
  destruct outcome; cbn [negb fst snd]; try exact Hact;
    destruct (List.length _ <? maxRetryQueueSize); exact Hact.
Qed.

Lemma retryOne_queue outcome scan g :
  active g = true -> List.length (failedScans g) < maxRetryQueueSize ->
  failedScans (retryOne outcome scan g)
  = failedScans g ++ (if appendFails outcome then [scan] else []).
Proof.
  intros Hact Hlt. apply Nat.ltb_lt in Hlt.
  unfold retryOne, logScanDirect. rewrite Hact. cbn [negb].
  destruct outcome; cbn [negb fst snd say failedScans appendFails];
    rewrite ?Hlt, ?app_nil_r; reflexivity.
Qed.

Lemma retryLoop_queue sink scans :
  forall g, active g = true ->
    List.length (failedScans g) + List.length scans <= maxRetryQueueSize ->
    failedScans (fold_left (fun g scan => retryOne (sink scan) scan g) scans g)
    = failedScans g ++ filter (fun scan => appendFails (sink scan)) scans.
Proof.
  induction scans as [|scan rest IH]; intros g Hact Hlen; cbn [fold_left filter].
  - rewrite app_nil_r. reflexivity.
  - cbn [List.length] in Hlen.
    assert (Hq := retryOne_queue (sink scan) scan g Hact ltac:(lia)).
    rewrite IH.
    + rewrite Hq. destruct (appendFails (sink scan)); rewrite <- app_assoc; reflexivity.
    + apply retryOne_active, Hact.
    + rewrite Hq, length_app. destruct (appendFails (sink scan)); cbn [List.length]; lia.
Qed.

(** X25.  An uninterrupted tick on an enabled logger whose queue respects the
    capacity retries every queued entry and keeps exactly those whose append
    failed again, in their old order: nothing is dropped and nothing is
    duplicated. *)
Theorem retryTick_keeps_the_failures sink g :
  active g = true -> bounded g ->
  failedScans (retryTick sink g)
  = filter (fun scan => appendFails (sink scan)) (failedScans g).
Proof.
  intros Hact Hb. unfold retryTick.
  destruct (List.length (failedScans g) =? 0) eqn:E.
  - apply Nat.eqb_eq in E. destruct (failedScans g); [ reflexivity | discriminate ].
  - unfold tickBegin. cbn [say failedScans].
    set (g1 := setFailedScans [] (say _ g)).
    assert (H1 : active g1 = true) by exact Hact.
    pose proof (retryLoop_queue sink (failedScans g) g1 H1) as Hq.
    cbn [g1 setFailedScans failedScans List.length] in Hq.
    specialize (Hq Hb). unfold tickEnd.
    destruct (0 <? _); cbn [say failedScans]; exact Hq.
Qed.

Lemma retryTick_keeps_the_failures_witness :
  failedScans
    (retryTick (fun _ => ResponseOk)
               (fst (logScan configured ResponseOk ResponseNotOk (row "r1") new)))
  = [].
Proof.
  rewrite retryTick_keeps_the_failures; [ reflexivity | reflexivity | ].
  unfold bounded, maxRetryQueueSize. cbn. lia.
Defined.

(** ** [logScans] *)

Lemma logScansLoop_counts env connection sink scans :
  forall g logged errors,
    active g = true -> isInitialized g = true ->
    let '(g', logged', errors') :=
      fold_left
        (fun acc scan =>
           let '(g, logged, errors) := acc in
           let '(g, ok) := logScan env connection (sink scan) scan g in
           if ok then (g, S logged, errors) else (g, logged, S errors))
        scans (g, logged, errors) in
    logged' = logged + List.length (filter (fun s => negb (appendFails (sink s))) scans)
    /\ errors' = errors + List.length (filter (fun s => appendFails (sink s)) scans).
Proof.
  induction scans as [|scan rest IH]; intros g logged errors Hact Hini; cbn [fold_left filter].
  - cbn. split; lia.
  - assert (Hact0 : active (if isInitialized g then g else init env connection g) = true)
      by (rewrite Hini; exact Hact).
    destruct (logScan_active_effect env connection (sink scan) scan g Hact0)
      as (Hok & _ & _ & Hact' & Hini').
    rewrite Hini in Hini'.
    destruct (logScan env connection (sink scan) scan g) as [g1 ok].
    cbn [fst snd] in *. subst ok.
    destruct (appendFails (sink scan)); cbn [negb].
    + specialize (IH g1 logged (S errors) Hact' (eq_trans Hini' Hini)).
      destruct (fold_left _ rest (g1, logged, S errors)) as [[g2 l2] e2].
      cbn [List.length]. destruct IH as [-> ->]. split; lia.
    + specialize (IH g1 (S logged) errors Hact' (eq_trans Hini' Hini)).
      destruct (fold_left _ rest (g1, S logged, errors)) as [[g2 l2] e2].
      cbn [List.length]. destruct IH as [-> ->]. split; lia.
Qed.

(** X26.  On an enabled logger [logScans] counts every scan once: [errors]
    is the number of scans whose append failed, [logged] the number of the
    others, the two add up to the number of scans, and [success] holds
    exactly when no append failed. *)
Theorem logScans_counts env connection sink scans g :
  let g0 := if isInitialized g then g else init env connection g in
  active g0 = true ->
  let r := snd (logScans env connection sink scans g) in
  errors r = List.length (filter (fun s => appendFails (sink s)) scans)
  /\ logged r = List.length (filter (fun s => negb (appendFails (sink s))) scans)
  /\ logged r + errors r = List.length scans
  /\ (success r = true <-> Forall (fun s => sink s = ResponseOk) scans).
Proof.
  intros g0 Hact r. subst r. unfold logScans. fold g0. rewrite Hact. cbn [negb].
  assert (Hini : isInitialized g0 = true).
  { subst g0. destruct (isInitialized g) eqn:E; [ exact E | ].
    apply init_initialized. }
  pose proof (logScansLoop_counts env connection sink scans g0 0 0 Hact Hini) as Hc.
  unfold logScansLoop.
  destruct (fold_left _ scans (g0, 0, 0)) as [[g1 l1] e1]. cbn [snd errors logged success].
  destruct Hc as [Hl He]. cbn [Nat.add] in Hl, He. subst l1 e1.
  split; [ reflexivity | ]. split; [ reflexivity | ]. split.
  - clear. induction scans as [|s rest IH]; [ reflexivity | ].
    cbn [filter List.length]. destruct (appendFails (sink s)); cbn [negb List.length]; lia.
  - rewrite Nat.eqb_eq. clear. induction scans as [|s rest IH].
    + split; [ constructor | reflexivity ].
    + cbn [filter]. destruct (sink s) eqn:E; cbn [appendFails List.length].
      * rewrite IH. split; [ intros H; constructor; assumption
                           | intros H; inversion H; assumption ].
      * split; [ discriminate | intros H; inversion H; congruence ].
      * split; [ discriminate | intros H; inversion H; congruence ].
Qed.

Lemma logScans_counts_witness :
  errors (snd (logScans configured ResponseOk
                        (fun s => if String.eqb (uuid s) "r2" then FetchThrew else ResponseOk)
                        [row "r1"; row "r2"; row "r3"] new))
  = 1.
Proof.
  destruct (logScans_counts configured ResponseOk
              (fun s => if String.eqb (uuid s) "r2" then FetchThrew else ResponseOk)
              [row "r1"; row "r2"; row "r3"] new) as (H & _); [ reflexivity | ].
  exact H.
Defined.

End GoogleSheetsLoggerMore.
